(** * The viewport activity observer of the guide's client code

  A shallow embedding of the [Observer] class (the "which item is most
  in view" helper of the client application) together with the parts of
  its two collaborators that the class relies on: the browser's
  [IntersectionObserver] and lodash ([_.orderBy], [_.throttle],
  [_.isArrayLike], [_.isElement], [_.map], [_.range]).

  Numbers are JavaScript numbers in the source.  Only comparisons are
  performed on ratios and coordinates, so they are embedded as rationals
  ([Q]): every finite double is one, and a decimal literal stands for
  the number it denotes.  Millisecond clocks and waits are integers
  ([Z]). *)

From Stdlib Require Import ZArith QArith Lqa List String Bool Lia.
From Stdlib Require Import Permutation Sorted Ascii DecimalString.
Import ListNotations.

Set Implicit Arguments.

(** ** JavaScript values and completions *)

Module Js.

Inductive Error : Type :=
| TypeError
| ReferenceError.

(** How a call ends: it returns, or an exception escapes from it. *)
Inductive Outcome : Type :=
| Returned
| Thrown (e : Error).

Inductive Completion (A : Type) : Type :=
| Normal (a : A)
| Throw (e : Error).
Arguments Throw {A} e.

(** Truthiness of a string: only the empty string is falsy. *)
Definition stringTruthy (s : string) : bool :=
  match s with
  | EmptyString => false
  | String _ _ => true
  end.

(** Truthiness of a (non-NaN) number: only zero is falsy. *)
Definition numberTruthy (q : Q) : bool := negb (Qeq_bool q 0).

End Js.

(** ** The document: elements and the intersection observer of the browser *)

Module Dom.

(** An HTML element: its identity as a node and its attributes, under
    the names the document keeps them (in lower case). *)
Record Element : Type := {
  node : nat;
  attributes : list (string * string)
}.

Definition sameNode (a b : Element) : bool := Nat.eqb (node a) (node b).

(** The ASCII capitals of a name in lower case. *)
Definition lowerCase (name : string) : string :=
  string_of_list_ascii
    (List.map
       (fun c =>
          if (("A" <=? c) && (c <=? "Z"))%char
          then ascii_of_nat (nat_of_ascii c + 32)
          else c)
       (list_ascii_of_string name)).

(** [e.getAttribute(name)]: on an HTML element the name is put in lower
    case before it is looked up; [None] is JavaScript's [null]. *)
Definition getAttribute (e : Element) (name : string) : option string :=
  option_map snd
    (find (fun kv => String.eqb (fst kv) (lowerCase name)) (attributes e)).

(** An [IntersectionObserverEntry] as the callback sees it.  The browser
    creates it with [target], [intersectionRatio] and
    [boundingClientRect]; [inView] is the property that [onObserve]
    writes on the object ([false] stands for the property being absent,
    which is falsy). *)
Record Entry : Type := {
  target : Element;
  intersectionRatio : Q;
  boundingClientRect_y : Q;
  inView : bool
}.

(** The entry the browser hands out: no [inView] property yet. *)
Definition browserEntry (t : Element) (ratio y : Q) : Entry :=
  {| target := t; intersectionRatio := ratio;
     boundingClientRect_y := y; inView := false |}.

Definition fresh (e : Entry) : Prop := inView e = false.

(** An array-like object other than an array of elements, by what the
    observer can see of it: its indexed items ([None] is an item that is
    not an element) and whether it has the methods [forEach] and [push].
    A [NodeList] has [forEach] and no [push]; an [HTMLCollection], and a
    form or select element (which is array-like: it has a [length] and
    holds its controls or options), have neither; a jQuery collection has
    [push] and no [forEach]; an array with an item that is not an element
    has both. *)
Record Collection : Type := {
  contents : list (option Element);
  hasForEach : bool;
  hasPush : bool
}.

(** What the argument of [addElements] (and [options.elements]) can be:
    [VUndefined] is [undefined] and any other value that is neither
    array-like nor an element ([null], a number, a plain object);
    [VElement] is an element without a [length]; [VArray] is an array of
    elements; [VString] is a string, which is array-like too. *)
Inductive Value : Type :=
| VUndefined
| VElement (e : Element)
| VArray (l : list Element)
| VCollection (c : Collection)
| VString (s : string).

(** The indexed items of an array-like value (none for another value);
    the items of a string are its characters. *)
Definition indexed (v : Value) : list (option Element) :=
  match v with
  | VArray l => List.map Some l
  | VCollection c => contents c
  | VString s => List.map (fun _ => None) (list_ascii_of_string s)
  | VUndefined | VElement _ => []
  end.

(** The items, when all of them are elements. *)
Fixpoint allElements (its : list (option Element)) : option (list Element) :=
  match its with
  | [] => Some []
  | Some e :: rest => option_map (cons e) (allElements rest)
  | None :: _ => None
  end.

(** The array that holds the given items. *)
Definition arrayOf (its : list (option Element)) : Value :=
  match allElements its with
  | Some l => VArray l
  | None => VCollection {| contents := its; hasForEach := true; hasPush := true |}
  end.

(** [v.forEach]: the items that the method visits, when [v] has it. *)
Definition forEach (v : Value) : option (list (option Element)) :=
  match v with
  | VArray l => Some (List.map Some l)
  | VCollection c => if hasForEach c then Some (contents c) else None
  | VString _ | VUndefined | VElement _ => None
  end.

(** [v.push(e)]: the value afterwards, when [v] has the method. *)
Definition push (e : Element) (v : Value) : option Value :=
  match v with
  | VArray l => Some (VArray (l ++ [e]))
  | VCollection c =>
      if hasPush c
      then Some (VCollection {| contents := contents c ++ [Some e];
                                hasForEach := hasForEach c;
                                hasPush := true |})
      else None
  | VString _ | VUndefined | VElement _ => None
  end.

(** [if (v)], as the constructor asks it of [options.elements].  What
    [VUndefined] stands for is taken with the falsy values: registering
    a value that is neither array-like nor an element does nothing. *)
Definition truthy (v : Value) : bool :=
  match v with
  | VUndefined => false
  | VString s => Js.stringTruthy s
  | VElement _ | VArray _ | VCollection _ => true
  end.

(** The browser's observer object, with the callback it was built with
    (of type [C]) and its set of observed targets. *)
Record IntersectionObserver (C : Type) : Type := {
  callback : C;
  root : option Element;
  threshold : list Q;
  targets : list Element
}.

Definition isObserved {C} (io : IntersectionObserver C) (e : Element) : bool :=
  existsb (sameNode e) (targets io).

(** [io.observe(e)]: a target that is already observed is not added
    again. *)
Definition observe {C} (e : Element) (io : IntersectionObserver C)
  : IntersectionObserver C :=
  if isObserved io e then io
  else {| callback := callback io; root := root io;
          threshold := threshold io; targets := targets io ++ [e] |}.

(** [io.disconnect()]: stop watching every target. *)
Definition disconnect {C} (io : IntersectionObserver C)
  : IntersectionObserver C :=
  {| callback := callback io; root := root io;
     threshold := threshold io; targets := [] |}.

(** The browser only reports entries, at least one, for targets that the
    observer currently watches. *)
Definition deliverable {C} (io : IntersectionObserver C)
           (entries : list Entry) : bool :=
  match entries with
  | [] => false
  | _ :: _ => forallb (fun e => isObserved io (target e)) entries
  end.

End Dom.

(** ** The functions of lodash that the observer calls

    lodash is a dependency of the application (the global [_]); the
    definitions below follow the library's own functions of the same
    names. *)

Module Lodash.

Import Dom.

(** [_.isArrayLike(v)]: every value with a [length] that is not a
    function. *)
Definition isArrayLike (v : Value) : bool :=
  match v with
  | VArray _ | VCollection _ | VString _ => true
  | VUndefined | VElement _ => false
  end.

(** [_.isElement(v)], with the element when [v] is one.  The observer
    only asks this of a value that is not array-like. *)
Definition isElement (v : Value) : option Element :=
  match v with
  | VElement e => Some e
  | _ => None
  end.

(** [_.range(start, stop)] *)
Definition range (start stop : nat) : list nat := seq start (stop - start).

(** [_.map(array)] with the default iteratee (identity): a fresh copy. *)
Definition mapIdentity {A} (l : list A) : list A := List.map (fun x => x) l.

(** *** [_.orderBy]

    Every value is decorated with its criteria and its position, the
    decorated array is sorted with [compareMultiple], and the values are
    read back. *)

Inductive Order : Type := asc | desc.

Record Decorated (A : Type) : Type := {
  criteria : list Q;
  index : nat;
  value : A
}.

Definition compareAscending (a b : Q) : comparison := Qcompare a b.

Definition applyOrder (o : Order) (c : comparison) : comparison :=
  match o with
  | desc => CompOpp c
  | asc => c
  end.

(** The loop of [compareMultiple] over the criteria: the first criterion
    that differs decides, in the direction of its order ([None]: all
    criteria are equal). *)
Fixpoint compareCriteria (objCriteria othCriteria : list Q)
         (orders : list Order) : option comparison :=
  match objCriteria, othCriteria with
  | a :: objRest, b :: othRest =>
      match compareAscending a b with
      | Eq => compareCriteria objRest othRest (tl orders)
      | c => match orders with
             | [] => Some c
             | o :: _ => Some (applyOrder o c)
             end
      end
  | _, _ => None
  end.

(** [compareMultiple]: equal criteria fall back on the original
    positions, which makes the sort stable. *)
Definition compareMultiple {A} (orders : list Order)
           (object other : Decorated A) : comparison :=
  match compareCriteria (criteria object) (criteria other) orders with
  | Some c => c
  | None => Nat.compare (index object) (index other)
  end.

Definition comesFirst {A} (orders : list Order)
           (object other : Decorated A) : bool :=
  match compareMultiple orders object other with
  | Gt => false
  | _ => true
  end.

(** [array.sort(comparer)], as an insertion sort.  [compareMultiple]
    never answers "equal" for two different positions, so every sorting
    algorithm yields the same array. *)
Fixpoint insert {A} (orders : list Order) (x : Decorated A)
         (l : list (Decorated A)) : list (Decorated A) :=
  match l with
  | [] => [x]
  | y :: rest =>
      if comesFirst orders x y then x :: y :: rest
      else y :: insert orders x rest
  end.

Fixpoint sortDecorated {A} (orders : list Order) (l : list (Decorated A))
  : list (Decorated A) :=
  match l with
  | [] => []
  | x :: rest => insert orders x (sortDecorated orders rest)
  end.

Fixpoint decorateFrom {A} (iteratees : list (A -> Q)) (i : nat) (l : list A)
  : list (Decorated A) :=
  match l with
  | [] => []
  | x :: rest =>
      {| criteria := List.map (fun f => f x) iteratees;
         index := i; value := x |}
      :: decorateFrom iteratees (S i) rest
  end.

Definition orderBy {A} (collection : list A) (iteratees : list (A -> Q))
           (orders : list Order) : list A :=
  List.map (@value A)
    (sortDecorated orders (decorateFrom iteratees 0 collection)).

(** *** [_.throttle(func, wait)]

    [throttle(func, wait)] is [debounce(func, wait)] with the options
    [leading: true], [trailing: true] and [maxWait: wait] (the observer
    passes no options of its own).  The closure variables of [debounce]
    form the state; the clock ([Date.now()]) is passed in; a pending
    [setTimeout] is recorded by the time at which it is due.  A function
    that would call [func] returns the arguments of that call. *)

Section Throttle.

Variable A : Type.

Record Throttled : Type := {
  wait : Z;
  lastArgs : option A;
  timerId : option Z;
  lastCallTime : option Z;
  lastInvokeTime : Z
}.

Definition throttle (ms : Z) : Throttled :=
  {| wait := ms; lastArgs := None; timerId := None;
     lastCallTime := None; lastInvokeTime := 0 |}.

Definition shouldInvoke (time : Z) (d : Throttled) : bool :=
  match lastCallTime d with
  | None => true
  | Some called =>
      (wait d <=? time - called)%Z
      || (time - called <? 0)%Z
      || (wait d <=? time - lastInvokeTime d)%Z
  end.

Definition remainingWait (time : Z) (d : Throttled) : Z :=
  match lastCallTime d with
  | None => wait d
  | Some called =>
      Z.min (wait d - (time - called))
            (wait d - (time - lastInvokeTime d))
  end.

Definition invokeFunc (time : Z) (d : Throttled) : Throttled * option A :=
  ({| wait := wait d; lastArgs := None; timerId := timerId d;
      lastCallTime := lastCallTime d; lastInvokeTime := time |},
   lastArgs d).

Definition setTimer (due : option Z) (d : Throttled) : Throttled :=
  {| wait := wait d; lastArgs := lastArgs d; timerId := due;
     lastCallTime := lastCallTime d; lastInvokeTime := lastInvokeTime d |}.

Definition leadingEdge (time : Z) (d : Throttled) : Throttled * option A :=
  invokeFunc time
    (setTimer (Some (time + wait d)%Z)
       {| wait := wait d; lastArgs := lastArgs d; timerId := timerId d;
          lastCallTime := lastCallTime d; lastInvokeTime := time |}).

Definition trailingEdge (time : Z) (d : Throttled) : Throttled * option A :=
  let d1 := setTimer None d in
  match lastArgs d1 with
  | Some _ => invokeFunc time d1
  | None => (d1, None)
  end.

(** The callback of the pending timer. *)
Definition timerExpired (time : Z) (d : Throttled) : Throttled * option A :=
  if shouldInvoke time d then trailingEdge time d
  else (setTimer (Some (time + remainingWait time d)%Z) d, None).

(** A call of the throttled function with [args] at [time]. *)
Definition debounced (time : Z) (args : A) (d : Throttled)
  : Throttled * option A :=
  let isInvoking := shouldInvoke time d in
  let d1 := {| wait := wait d; lastArgs := Some args; timerId := timerId d;
               lastCallTime := Some time;
               lastInvokeTime := lastInvokeTime d |} in
  if isInvoking then
    match timerId d1 with
    | None => leadingEdge time d1
    | Some _ => invokeFunc time (setTimer (Some (time + wait d1)%Z) d1)
    end
  else
    match timerId d1 with
    | None => (setTimer (Some (time + wait d1)%Z) d1, None)
    | Some _ => (d1, None)
    end.

End Throttle.

End Lodash.

(** ** The [Observer] class *)

Module Observer.

Import Js Dom.

(** What the caller may pass as [options.throttle]: nothing, [false], or
    a number of milliseconds. *)
Inductive ThrottleValue : Type :=
| ThrottleUnset
| ThrottleFalse
| ThrottleMs (ms : Z).

Definition throttleTruthy (t : ThrottleValue) : bool :=
  match t with
  | ThrottleMs ms => negb (ms =? 0)%Z
  | _ => false
  end.

Definition isFalse (t : ThrottleValue) : bool :=
  match t with
  | ThrottleFalse => true
  | _ => false
  end.

(** The options object as the caller passes it; [None] is an option left
    out.  The caller's callback [options.onObserve] is not a field: its
    calls are recorded in the [World] below. *)
Record RawOptions : Type := {
  rawThrottle : ThrottleValue;
  rawAttribute : option string;
  rawVisibleThreshold : option Q;
  rawRoot : option Element;
  rawForceItem : option bool;
  rawElements : Value
}.

(** The options object once the constructor has filled in the defaults. *)
Record Options : Type := {
  throttle : ThrottleValue;
  attribute : string;
  visibleThreshold : Q;
  root : option Element;
  forceItem : bool;
  elements : Value
}.

Definition setElements (v : Value) (o : Options) : Options :=
  {| throttle := throttle o; attribute := attribute o;
     visibleThreshold := visibleThreshold o; root := root o;
     forceItem := forceItem o; elements := v |}.

(** [options.throttle === false || options.throttle ? options.throttle : 150] *)
Definition defaultThrottle (t : ThrottleValue) : ThrottleValue :=
  if isFalse t || throttleTruthy t then t else ThrottleMs 150.

(** [options.attribute || 'data-id'] *)
Definition defaultAttribute (a : option string) : string :=
  match a with
  | Some s => if stringTruthy s then s else "data-id"%string
  | None => "data-id"%string
  end.

(** [options.visibleThreshold || 0.85] *)
Definition defaultVisibleThreshold (v : option Q) : Q :=
  match v with
  | Some q => if numberTruthy q then q else 0.85%Q
  | None => 0.85%Q
  end.

(** [options.forceItem === false || options.forceItem ? options.forceItem : false] *)
Definition defaultForceItem (f : option bool) : bool :=
  match f with
  | Some b => if negb b || b then b else false
  | None => false
  end.

Definition defaults (raw : RawOptions) : Options :=
  {| throttle := defaultThrottle (rawThrottle raw);
     attribute := defaultAttribute (rawAttribute raw);
     visibleThreshold := defaultVisibleThreshold (rawVisibleThreshold raw);
     root := rawRoot raw;
     forceItem := defaultForceItem (rawForceItem raw);
     elements := rawElements raw |}.

(** The callback handed to [new IntersectionObserver]: the bound
    [onObserve] itself, or that function wrapped by [_.throttle]. *)
Inductive Callback : Type :=
| Bound
| Throttled (d : Lodash.Throttled (list Entry)).

(** [this]: the options and, when the constructor got that far,
    [this.observer]. *)
Record Observer : Type := {
  options : Options;
  observer : option (IntersectionObserver Callback)
}.

(** Where the script runs: outside a browser the identifiers [window]
    and [document] are not declared; in a browser the
    [IntersectionObserver] constructor may or may not exist. *)
Inductive Env : Type :=
| NonBrowser
| Browser (hasIntersectionObserver : bool).

(** [_.map(_.range(0, 50), i => i * 2 / 100)] *)
Definition thresholds : list Q :=
  List.map (fun i => (Z.of_nat i * 2 # 100)%Q) (Lodash.range 0 50).

(** [this.observer.observe(e)]: a [TypeError] when [this.observer] is
    [undefined]. *)
Definition observerObserve (e : Element) (this : Observer)
  : Observer * Outcome :=
  match observer this with
  | None => (this, Thrown TypeError)
  | Some io =>
      ({| options := options this; observer := Some (observe e io) |},
       Returned)
  end.

(** The callback of [elements.forEach(e => { this.observer.observe(e); })]
    on the items in turn; [observe] of an item that is not an element is
    a [TypeError]. *)
Fixpoint forEachObserve (its : list (option Element)) (this : Observer)
  : Observer * Outcome :=
  match its with
  | [] => (this, Returned)
  | Some e :: rest =>
      match observerObserve e this with
      | (this1, Returned) => forEachObserve rest this1
      | thrown => thrown
      end
  | None :: _ => (this, Thrown TypeError)
  end.

Definition addElements (els : Value) (this : Observer) : Observer * Outcome :=
  if Lodash.isArrayLike els then
    let registry :=
      if Lodash.isArrayLike (elements (options this)) then
        let copy := Lodash.mapIdentity (indexed (elements (options this))) in
        (* [this.options.elements.concat(elements)]: the array that
           [concat] returns is not kept *)
        let _ := copy ++ indexed els in
        arrayOf copy
      else els in
    let this1 :=
      {| options := setElements registry (options this);
         observer := observer this |} in
    match forEach els with
    | Some its => forEachObserve its this1
    | None =>
        (* [elements.forEach] is not a function *)
        (this1, Thrown TypeError)
    end
  else
    match Lodash.isElement els with
    | Some e =>
        let pushed :=
          if Lodash.isArrayLike (elements (options this))
          then push e (elements (options this))
          else Some (VArray [e]) in
        match pushed with
        | Some registry =>
            observerObserve e
              {| options := setElements registry (options this);
                 observer := observer this |}
        | None =>
            (* [this.options.elements.push] is not a function *)
            (this, Thrown TypeError)
        end
    | None => (this, Returned)
    end.

(** The arguments of one call of the caller's [options.onObserve]:
    [None] is [undefined]; [Some None] is the [null] that
    [getAttribute] gives for a missing attribute. *)
Record Notification : Type := {
  identifier : option (option string);
  sample : option Entry;
  rankedList : list Entry
}.

Definition markInView (e : Entry) : Entry :=
  {| target := target e; intersectionRatio := intersectionRatio e;
     boundingClientRect_y := boundingClientRect_y e; inView := true |}.

(** [onObserve(entries)]; reading [sorted[0].intersectionRatio] of an
    empty array is a [TypeError]. *)
Definition onObserve (opts : Options) (entries : list Entry)
  : Completion Notification :=
  let sorted :=
    Lodash.orderBy entries
      [intersectionRatio; boundingClientRect_y]
      [Lodash.desc; Lodash.asc] in
  match sorted with
  | [] => Throw TypeError
  | first :: others =>
      let first' :=
        if Qle_bool (visibleThreshold opts) (intersectionRatio first)
           || forceItem opts
        then markInView first
        else first in
      Normal
        {| identifier :=
             if inView first'
             then Some (getAttribute (target first') (attribute opts))
             else None;
           sample := if inView first' then Some first' else None;
           rankedList := first' :: others |}
  end.

Definition stop (this : Observer) : Observer :=
  match observer this with
  | Some io =>
      {| options := options this; observer := Some (disconnect io) |}
  | None => this
  end.

Definition constructor (env : Env) (raw : RawOptions)
  : Completion Observer :=
  let opts := defaults raw in
  (* [options.root || document.querySelector('document')] *)
  match root opts, env with
  | None, NonBrowser => Throw ReferenceError
  | _, _ =>
      (* [if (!window || !window.IntersectionObserver) return;] *)
      match env with
      | NonBrowser => Throw ReferenceError
      | Browser false => Normal {| options := opts; observer := None |}
      | Browser true =>
          let this :=
            {| options := opts;
               observer :=
                 Some {| callback :=
                           if throttleTruthy (throttle opts)
                           then
                             match throttle opts with
                             | ThrottleMs ms => Throttled (Lodash.throttle _ ms)
                             | _ => Bound
                             end
                           else Bound;
                         Dom.root := root opts;
                         threshold := thresholds;
                         targets := [] |} |} in
          if truthy (elements opts) then
            match addElements (elements opts) this with
            | (this1, Returned) => Normal this1
            | (_, Thrown e) => Throw e
            end
          else Normal this
      end
  end.

(** *** The page around the observer

    The tracker, the calls of the caller's [options.onObserve] made so
    far (with the time of each call) and the exceptions that escaped. *)

Record World : Type := {
  this : Observer;
  calls : list (Z * Notification);
  uncaught : list (Z * Error)
}.

Definition boot (env : Env) (raw : RawOptions) : Completion World :=
  match constructor env raw with
  | Normal t => Normal {| this := t; calls := []; uncaught := [] |}
  | Throw e => Throw e
  end.

(** The bound [onObserve] runs on a batch at [time]. *)
Definition process (time : Z) (entries : list Entry) (w : World) : World :=
  match onObserve (options (this w)) entries with
  | Normal n =>
      {| this := this w; calls := calls w ++ [(time, n)];
         uncaught := uncaught w |}
  | Throw e =>
      {| this := this w; calls := calls w;
         uncaught := uncaught w ++ [(time, e)] |}
  end.

Definition setCallback (c : Callback) (w : World) : World :=
  match observer (this w) with
  | Some io =>
      {| this := {| options := options (this w);
                    observer := Some {| callback := c;
                                        Dom.root := Dom.root io;
                                        threshold := threshold io;
                                        targets := targets io |} |};
         calls := calls w; uncaught := uncaught w |}
  | None => w
  end.

(** The browser calls the observer's callback with a batch. *)
Definition invokeCallback (time : Z) (entries : list Entry) (w : World)
  : World :=
  match observer (this w) with
  | None => w
  | Some io =>
      match callback io with
      | Bound => process time entries w
      | Throttled d =>
          match Lodash.debounced time entries d with
          | (d1, Some args) => process time args (setCallback (Throttled d1) w)
          | (d1, None) => setCallback (Throttled d1) w
          end
      end
  end.

(** The time at which the timer of the throttled callback is due. *)
Definition pendingTimer (w : World) : option Z :=
  match observer (this w) with
  | Some io =>
      match callback io with
      | Throttled d => Lodash.timerId d
      | Bound => None
      end
  | None => None
  end.

(** The pending timer goes off at [time]. *)
Definition fireTimer (time : Z) (w : World) : World :=
  match observer (this w) with
  | Some io =>
      match callback io with
      | Throttled d =>
          match Lodash.timerExpired time d with
          | (d1, Some args) => process time args (setCallback (Throttled d1) w)
          | (d1, None) => setCallback (Throttled d1) w
          end
      | Bound => w
      end
  | None => w
  end.

(** A timer that is due at or before [time] goes off, at its due time. *)
Definition fireDue (time : Z) (w : World) : World :=
  match pendingTimer w with
  | Some due => if (due <=? time)%Z then fireTimer due w else w
  | None => w
  end.

(** Let the clock reach [time].  A timer that goes off may re-arm itself
    once ([advance_settles] below: not twice). *)
Definition advance (time : Z) (w : World) : World :=
  fireDue time (fireDue time w).

(** What happens on the page: the host calls a method of the tracker, or
    the browser has a batch of entries for it. *)
Inductive Event : Type :=
| AddElements (els : Value)
| Stop
| Deliver (entries : list Entry).

Definition withThis (r : Observer * Outcome) (time : Z) (w : World) : World :=
  {| this := fst r; calls := calls w;
     uncaught :=
       match snd r with
       | Returned => uncaught w
       | Thrown e => uncaught w ++ [(time, e)]
       end |}.

Definition handle (time : Z) (ev : Event) (w : World) : World :=
  match ev with
  | AddElements els => withThis (addElements els (this w)) time w
  | Stop => withThis (stop (this w), Returned) time w
  | Deliver entries =>
      match observer (this w) with
      | Some io =>
          if deliverable io entries then invokeCallback time entries w
          else w
      | None => w
      end
  end.

(** A schedule of timed events, in order of time. *)
Fixpoint run (events : list (Z * Event)) (w : World) : World :=
  match events with
  | [] => w
  | (time, ev) :: rest => run rest (handle time ev (advance time w))
  end.

(** After the last event: a timer that is still pending goes off when it
    is due and, if it re-armed itself, once more. *)
Definition drain (w : World) : World :=
  match pendingTimer w with
  | Some due =>
      let w1 := fireTimer due w in
      match pendingTimer w1 with
      | Some due1 => fireTimer due1 w1
      | None => w1
      end
  | None => w
  end.

End Observer.

(** ** The helpers shared by the components

    Strings are sequences of characters of which the functions below only
    tell ASCII characters apart; [None] is an argument that is not there
    ([undefined] or [null]). *)

Module Helpers.

Import Js.

Local Open Scope string_scope.

Definition isDigit (c : ascii) : bool := (("0" <=? c) && (c <=? "9"))%char.

(** The lower-case form of an ASCII capital; other characters stay as
    they are (a pattern of ASCII letters that ignores case matches ASCII
    letters only). *)
Definition lower (c : ascii) : ascii :=
  if (("A" <=? c) && (c <=? "Z"))%char
  then ascii_of_nat (nat_of_ascii c + 32)
  else c.

(** The rest of [s] after the prefix [p]. *)
Fixpoint afterPrefix (p s : string) : option string :=
  match p with
  | EmptyString => Some s
  | String a p' =>
      match s with
      | EmptyString => None
      | String c s' => if Ascii.eqb c a then afterPrefix p' s' else None
      end
  end.

(** The same with the case ignored; [p] is in lower case. *)
Fixpoint afterPrefixCI (p s : string) : option string :=
  match p with
  | EmptyString => Some s
  | String a p' =>
      match s with
      | EmptyString => None
      | String c s' => if Ascii.eqb (lower c) a then afterPrefixCI p' s' else None
      end
  end.

(** [s.replace(/[^0-9]+/g, '')]: every run of characters that are not
    digits is removed. *)
Fixpoint removeNonDigits (s : string) : string :=
  match s with
  | EmptyString => EmptyString
  | String c rest =>
      if isDigit c then String c (removeNonDigits rest)
      else removeNonDigits rest
  end.

Definition phoneURL (phone : option string) : string :=
  match phone with
  | Some s => if stringTruthy s then "tel:" ++ removeNonDigits s else EmptyString
  | None => EmptyString
  end.

(** [url.match(/^http/i)] decides whether the scheme is added. *)
Definition urlLink (url : option string) : string :=
  match url with
  | Some u =>
      if stringTruthy u then
        match afterPrefixCI "http" u with
        | Some _ => u
        | None => "http://" ++ u
        end
      else EmptyString
  | None => EmptyString
  end.

(** [s.replace(/^https?:\/\//i, '')]: the optional [s] is tried first,
    then left out. *)
Definition stripScheme (s : string) : string :=
  match afterPrefixCI "http" s with
  | Some r =>
      match
        match afterPrefixCI "s" r with
        | Some r' => afterPrefix "://" r'
        | None => None
        end
      with
      | Some t => t
      | None =>
          match afterPrefix "://" r with
          | Some t => t
          | None => s
          end
      end
  | None => s
  end.

(** [s.replace(/www\./i, '')]: the first place where the pattern matches,
    wherever it is. *)
Fixpoint removeFirstWww (s : string) : string :=
  match s with
  | EmptyString => EmptyString
  | String c rest =>
      match afterPrefixCI "www." s with
      | Some r => r
      | None => String c (removeFirstWww rest)
      end
  end.

(** [s.replace(/\/$/, '')]: one slash at the very end. *)
Fixpoint dropTrailingSlash (s : string) : string :=
  match s with
  | EmptyString => EmptyString
  | String c rest =>
      match rest with
      | EmptyString => if Ascii.eqb c "/" then EmptyString else s
      | String _ _ => String c (dropTrailingSlash rest)
      end
  end.

Definition urlText (url : option string) : string :=
  match url with
  | Some u =>
      if stringTruthy u
      then dropTrailingSlash (removeFirstWww (stripScheme u))
      else EmptyString
  | None => EmptyString
  end.

(** [input.replace(/(<([^>]+)>)/gi, '')], as the scan that the pattern
    amounts to.  [pending] holds the characters met since a [<] that may
    open a tag.  A [>] closes the tag, which is dropped, unless it comes
    right after the [<] (the pattern asks for a character in between):
    then both stay.  A [<] that no [>] follows stays with all that comes
    after it. *)
Fixpoint stripTags (pending : option string) (s : string) : string :=
  match s with
  | EmptyString =>
      match pending with
      | None => EmptyString
      | Some held => String "<" held
      end
  | String c rest =>
      match pending with
      | None =>
          if Ascii.eqb c "<" then stripTags (Some EmptyString) rest
          else String c (stripTags None rest)
      | Some held =>
          if Ascii.eqb c ">" then
            match held with
            | EmptyString => String "<" (String ">" (stripTags None rest))
            | String _ _ => stripTags None rest
            end
          else stripTags (Some (held ++ String c EmptyString)) rest
      end
  end.

Definition escapeHTML (input : option string) : string :=
  match input with
  | Some s => if stringTruthy s then stripTags None s else EmptyString
  | None => EmptyString
  end.

(** *** Dates *)

(** A [Date] object, by what its getters answer: a valid date has a year,
    a month from 0, a day of the month and a text ([toString()]); the
    getters of an invalid date answer [NaN]. *)
Inductive JsDate : Type :=
| ValidDate (year : Z) (month : nat) (day : nat) (text : string)
| InvalidDate.

(** What is passed as a date: a string, a [Date], or something else. *)
Inductive DateInput : Type :=
| DateString (s : string)
| DateObject (d : JsDate)
| DateOther.

(** [String(n)] of an integer. *)
Definition numberToString (z : Z) : string :=
  NilZero.string_of_int (Z.to_int z).

(** [s.split('-')] *)
Fixpoint split (sep : ascii) (s : string) : list string :=
  match s with
  | EmptyString => [EmptyString]
  | String c rest =>
      if Ascii.eqb c sep then EmptyString :: split sep rest
      else
        match split sep rest with
        | piece :: pieces => String c piece :: pieces
        | [] => [String c EmptyString]
        end
  end.

(** The first of the alternatives, in their order, that is at the start
    of [s]. *)
Fixpoint firstMatch (alternatives : list string) (s : string) : option string :=
  match alternatives with
  | [] => None
  | p :: others =>
      match afterPrefix p s with
      | Some _ => Some p
      | None => firstMatch others s
      end
  end.

(** [s.replace(/a|b|.../g, replacement)] for alternatives without special
    characters: from left to right, each match is replaced and the scan
    goes on after it.  [skip] counts the characters of a match that are
    still to be passed over. *)
Fixpoint replaceFrom (alternatives : list string) (replacement : string)
         (skip : nat) (s : string) : string :=
  match s with
  | EmptyString => EmptyString
  | String c rest =>
      match skip with
      | S k => replaceFrom alternatives replacement k rest
      | O =>
          match firstMatch alternatives s with
          | Some p =>
              replacement
              ++ replaceFrom alternatives replacement (String.length p - 1) rest
          | None => String c (replaceFrom alternatives replacement 0 rest)
          end
      end
  end.

Definition replaceAll (alternatives : list string) (replacement s : string)
  : string :=
  replaceFrom alternatives replacement 0 s.

Definition monthLong : list string :=
  ["January"; "February"; "March"; "April"; "May"; "June"; "July";
   "August"; "September"; "October"; "November"; "December"].

Definition monthShort : list string :=
  ["Jan"; "Feb"; "Mar"; "Apr"; "May"; "June"; "July"; "Aug"; "Sept";
   "Oct"; "Nov"; "Dec"].

(** [names[d.getMonth()]] as a replacement: a missing entry is
    [undefined]. *)
Definition monthName (names : list string) (d : JsDate) : string :=
  match d with
  | ValidDate _ month _ _ => nth month names "undefined"
  | InvalidDate => "undefined"
  end.

Definition getFullYear (d : JsDate) : string :=
  match d with
  | ValidDate year _ _ _ => numberToString year
  | InvalidDate => "NaN"
  end.

Definition getDate (d : JsDate) : string :=
  match d with
  | ValidDate _ _ day _ => numberToString (Z.of_nat day)
  | InvalidDate => "NaN"
  end.

Definition toString (d : JsDate) : string :=
  match d with
  | ValidDate _ _ _ text => text
  | InvalidDate => "Invalid Date"
  end.

Section Dates.

(** [parseInt(piece, 10)] ([None]: [NaN]) and [new Date(year, month, day)]
    are the platform's. *)
Variable parseInt : option string -> option Z.
Variable newDate : option Z -> option Z -> option Z -> JsDate.

Definition parseDate (input : DateInput) : option JsDate :=
  match input with
  | DateString s =>
      Some (newDate (parseInt (nth_error (split "-" s) 0))
                    (option_map (fun m => (m - 1)%Z)
                                (parseInt (nth_error (split "-" s) 1)))
                    (parseInt (nth_error (split "-" s) 2)))
  | DateObject d => Some d
  | DateOther => None
  end.

Definition formatDate (date : DateInput) (format : option string) : string :=
  let format :=
    match format with
    | Some f => f
    | None => "Month Date, Year"
    end in
  match parseDate date with
  | None => EmptyString
  | Some d =>
      replaceAll ["Date"] (getDate d)
        (replaceAll ["MonthLong"] (monthName monthLong d)
           (replaceAll ["Month"; "MonthShort"] (monthName monthShort d)
              (replaceAll ["Year"] (getFullYear d)
                 (replaceAll ["ISO"] (toString d) format))))
  end.

End Dates.

(** *** Links for sharing *)

(** The fields of [data] and of [content] that the links read; [None] is
    a field that is not set. *)
Record ShareData : Type := {
  baseURL : option string;
  dataTwitterShare : option string;
  dataEmailShare : option string
}.

Record ShareContent : Type := {
  contentTwitterShare : option string;
  contentEmailShare : option string;
  twitterAccount : option string
}.

(** [String(v)] of a field. *)
Definition fieldToString (v : option string) : string :=
  match v with
  | Some s => s
  | None => "undefined"
  end.

Definition fieldTruthy (v : option string) : bool :=
  match v with
  | Some s => stringTruthy s
  | None => false
  end.

(** Reading a property of [object]: a [TypeError] when the object is not
    there. *)
Definition property {O A : Type} (object : option O) (field : O -> A)
  : Completion A :=
  match object with
  | Some o => Normal (field o)
  | None => Throw TypeError
  end.

Definition andThen {A B : Type} (c : Completion A) (k : A -> Completion B)
  : Completion B :=
  match c with
  | Normal a => k a
  | Throw e => Throw e
  end.

Section Sharing.

Variable encodeURIComponent : string -> string.

Definition twitterURL (data : option ShareData) (content : option ShareContent)
  : Completion string :=
  match data, content with
  | None, None => Normal EmptyString
  | _, _ =>
      andThen (property data dataTwitterShare) (fun own =>
      andThen (if fieldTruthy own then Normal own
               else property content contentTwitterShare) (fun text =>
      andThen (property data baseURL) (fun url =>
      andThen (property content twitterAccount) (fun via =>
      Normal ("https://twitter.com/intent/tweet?text="
              ++ encodeURIComponent (fieldToString text)
              ++ "&url=" ++ encodeURIComponent (fieldToString url)
              ++ "&via=" ++ encodeURIComponent (fieldToString via))))))
  end.

Definition emailURL (data : option ShareData) (content : option ShareContent)
  : Completion string :=
  match data, content with
  | None, None => Normal EmptyString
  | _, _ =>
      andThen (property data dataEmailShare) (fun own =>
      andThen (if fieldTruthy own then Normal own
               else property content contentEmailShare) (fun subject =>
      andThen (property data baseURL) (fun url =>
      Normal ("mailto:RECIPIENT?subject="
              ++ encodeURIComponent (fieldToString subject)
              ++ "&body=" ++ encodeURIComponent (fieldToString url)))))
  end.

End Sharing.

End Helpers.

(** ** Vocabulary of the statements *)

Module Ranking.

Import Dom.

(** [a] is ranked at least as high as [b]: more of it is in view or, at
    the same ratio, its top is not lower. *)
Definition outranks (a b : Entry) : Prop :=
  (intersectionRatio b <= intersectionRatio a)%Q
  /\ (intersectionRatio b == intersectionRatio a ->
      boundingClientRect_y a <= boundingClientRect_y b)%Q.

(** [e] is a sample of the batch that no other sample beats. *)
Definition mostVisible (e : Entry) (batch : list Entry) : Prop :=
  In e batch /\ forall e', In e' batch -> outranks e e'.

(** The criteria and orders that [onObserve] passes to [_.orderBy]. *)
Definition keys : list (Entry -> Q) :=
  [intersectionRatio; boundingClientRect_y].

Definition orders : list Lodash.Order := [Lodash.desc; Lodash.asc].

(** A decorated entry carries the criteria of its own value. *)
Definition keyed (d : Lodash.Decorated Entry) : Prop :=
  Lodash.criteria d
  = [intersectionRatio (Lodash.value d);
     boundingClientRect_y (Lodash.value d)].

(** How many entries of a list are marked as in view. *)
Definition activeCount (l : list Entry) : nat :=
  List.length (List.filter inView l).

End Ranking.

(** Concrete elements, options and batches used by the examples. *)

Module Scenario.

Import Js Dom Observer.

Definition item (n : nat) (id : string) : Element :=
  {| node := n; attributes := [("data-id"%string, id)] |}.

Definition itemA : Element := item 0 "a".
Definition itemB : Element := item 1 "b".
Definition itemC : Element := item 2 "c".

(** Options with every field left out, except the elements to watch. *)
Definition config (els : Value) : RawOptions :=
  {| rawThrottle := ThrottleUnset; rawAttribute := None;
     rawVisibleThreshold := None; rawRoot := None;
     rawForceItem := None; rawElements := els |}.

Definition withThrottle (t : ThrottleValue) (raw : RawOptions) : RawOptions :=
  {| rawThrottle := t; rawAttribute := rawAttribute raw;
     rawVisibleThreshold := rawVisibleThreshold raw;
     rawRoot := rawRoot raw; rawForceItem := rawForceItem raw;
     rawElements := rawElements raw |}.

Definition withVisibleThreshold (q : Q) (raw : RawOptions) : RawOptions :=
  {| rawThrottle := rawThrottle raw; rawAttribute := rawAttribute raw;
     rawVisibleThreshold := Some q;
     rawRoot := rawRoot raw; rawForceItem := rawForceItem raw;
     rawElements := rawElements raw |}.

Definition withForceItem (b : bool) (raw : RawOptions) : RawOptions :=
  {| rawThrottle := rawThrottle raw; rawAttribute := rawAttribute raw;
     rawVisibleThreshold := rawVisibleThreshold raw;
     rawRoot := rawRoot raw; rawForceItem := Some b;
     rawElements := rawElements raw |}.

(** The options of the threshold examples: [visibleThreshold] 0.85 and the
    given [forceItem]. *)
Definition gated (force : bool) : Options :=
  defaults (withForceItem force (withVisibleThreshold 0.85 (config VUndefined))).

(** Three samples with ratios 0.9, 0.95, 0.3 and tops 10, 20, 5. *)
Definition threeSamples : list Entry :=
  [browserEntry itemA 0.9 10;
   browserEntry itemB 0.95 20;
   browserEntry itemC 0.3 5].

(** A batch with one sample, of [itemA], at the given ratio. *)
Definition oneSample (ratio : Q) : list Entry := [browserEntry itemA ratio 0].

(** The world of a tracker built on the given options, when the
    constructor returned. *)
Definition started (env : Env) (raw : RawOptions) : option World :=
  match boot env raw with
  | Normal w => Some w
  | Throw _ => None
  end.

(** A tracker on [itemA] with a throttle of 150ms. *)
Definition throttled150 : option World :=
  started (Browser true) (withThrottle (ThrottleMs 150) (config (VArray [itemA]))).

(** Five batches, at 0, 10, 20, 30 and 140ms. *)
Definition fiveBatches : list (Z * Event) :=
  [(0, Deliver (oneSample 0.1)); (10, Deliver (oneSample 0.2));
   (20, Deliver (oneSample 0.3)); (30, Deliver (oneSample 0.4));
   (140, Deliver (oneSample 0.5))]%Z.

(** Two batches, then [stop] at 100ms. *)
Definition stopWhilePending : list (Z * Event) :=
  [(0, Deliver (oneSample 0.1)); (50, Deliver (oneSample 0.2));
   (100, Stop)]%Z.

(** The calls of the caller's callback, as time and batch ratios. *)
Definition trace (w : World) : list (Z * list Q) :=
  List.map (fun c => (fst c, List.map intersectionRatio (rankedList (snd c))))
           (calls w).

End Scenario.

(** Readings of the tracker's state used in the statements. *)

Module Setup.

Import Js Dom Observer.

(** The options other than the registry of elements. *)
Definition settings (o : Options)
  : ThrottleValue * string * Q * option Element * bool :=
  (throttle o, attribute o, visibleThreshold o, root o, forceItem o).

(** The callback that the constructor installed, if it installed one. *)
Definition installed (t : Observer) : option Callback :=
  option_map (@callback Callback) (observer t).

(** The elements that the intersection observer currently watches. *)
Definition watched (t : Observer) : list Element :=
  match observer t with
  | Some io => targets io
  | None => []
  end.

(** The batch that the throttled callback holds back, if any. *)
Definition pendingBatch (w : World) : option (list Entry) :=
  match installed (this w) with
  | Some (Throttled d) => Lodash.lastArgs d
  | _ => None
  end.

(** The elements among the items. *)
Fixpoint elementsAmong (its : list (option Element)) : list Element :=
  match its with
  | [] => []
  | Some e :: rest => e :: elementsAmong rest
  | None :: rest => elementsAmong rest
  end.

(** The elements that an argument of [addElements] holds. *)
Definition members (v : Value) : list Element :=
  match v with
  | VArray l => l
  | VElement e => [e]
  | VUndefined => []
  | VCollection c => elementsAmong (contents c)
  | VString _ => []
  end.

(** Can [push] be called on the registry?  (On a registry that is not
    array-like the observer does not call it.) *)
Definition pushable (registry : Value) : bool :=
  match registry with
  | VCollection c => hasPush c
  | VString _ => false
  | VUndefined | VElement _ | VArray _ => true
  end.

(** The arguments on which [addElements] returns, on a tracker that has
    its observer and the given registry: no value at all, an element when
    the registry takes it, an array of elements, or a collection that has
    [forEach] and holds elements only. *)
Definition accepts (registry els : Value) : bool :=
  match els with
  | VUndefined => true
  | VElement _ => pushable registry
  | VArray _ => true
  | VCollection c =>
      hasForEach c
      && forallb (fun it => match it with Some _ => true | None => false end)
                 (contents c)
  | VString _ => false
  end.


(** The values of [options.elements] with which the constructor
    returns, in a browser that has [IntersectionObserver]: a falsy one,
    which is not registered, or one that [addElements] accepts. *)
Definition constructs (els : Value) : bool :=
  negb (truthy els) || accepts els els.


(** Nothing is watched and no batch is held back. *)
Definition quiet (w : World) : Prop :=
  watched (this w) = [] /\ pendingBatch w = None.

Definition isRegistration (ev : Event) : bool :=
  match ev with
  | AddElements _ => true
  | _ => false
  end.

(** The identifier that a call of [onObserve] passes to the callback
    ([Some None]: the call passes [undefined]). *)
Definition identifier_of (c : Completion Notification)
  : option (option (option string)) :=
  match c with
  | Normal n => Some (identifier n)
  | Throw _ => None
  end.

End Setup.

(** Further readings used in the statements about the observer. *)

Module Facts.

Import Js Dom Observer.

(** [a] beats [b] outright: more of it is in view or, at the same ratio,
    its top is higher. *)
Definition strictlyOutranks (a b : Entry) : Prop :=
  (intersectionRatio b < intersectionRatio a)%Q
  \/ ((intersectionRatio b == intersectionRatio a)%Q
      /\ (boundingClientRect_y a < boundingClientRect_y b)%Q).

(** The options object that the constructor leaves behind, read as the
    argument of another construction. *)
Definition asRaw (o : Options) : RawOptions :=
  {| rawThrottle := throttle o;
     rawAttribute := Some (attribute o);
     rawVisibleThreshold := Some (visibleThreshold o);
     rawRoot := root o;
     rawForceItem := Some (forceItem o);
     rawElements := elements o |}.

(** Is the element one of the list, by node? *)
Definition among (l : list Element) (e : Element) : bool :=
  existsb (sameNode e) l.



(** The tracker has no observer and the caller's callback was never
    called. *)
Definition inert (w : World) : Prop :=
  observer (this w) = None /\ calls w = [].

End Facts.

(** Readings of strings used in the statements about the helpers. *)

Module Text.

Import Helpers.

Local Open Scope string_scope.

Definition allDigits (s : string) : bool :=
  forallb isDigit (list_ascii_of_string s).

Fixpoint hasChar (c : ascii) (s : string) : bool :=
  match s with
  | EmptyString => false
  | String a rest => Ascii.eqb a c || hasChar c rest
  end.

(** A text in which no [<] is followed by a character other than [>] and,
    later, by a [>]: what is left of a [<] is a [<>] or has no [>] after
    it. *)
Inductive tagFree : string -> Prop :=
| tagFree_empty : tagFree EmptyString
| tagFree_char (c : ascii) (rest : string) :
    c <> "<"%char -> tagFree rest -> tagFree (String c rest)
| tagFree_pair (rest : string) :
    tagFree rest -> tagFree (String "<" (String ">" rest))
| tagFree_open (held : string) :
    hasChar ">" held = false -> tagFree (String "<" held).

(** No alternative begins with [c]. *)
Definition beginsNone (alternatives : list string) (c : ascii) : bool :=
  forallb (fun p => match p with
                    | String a _ => negb (Ascii.eqb a c)
                    | EmptyString => false
                    end)
          alternatives.

(** No alternative begins with a character of [s]. *)
Fixpoint inertFor (alternatives : list string) (s : string) : bool :=
  match s with
  | EmptyString => true
  | String c rest => beginsNone alternatives c && inertFor alternatives rest
  end.

(** The characters of a printed integer. *)
Definition isNumberChar (c : ascii) : bool := isDigit c || Ascii.eqb c "-".

Fixpoint numeric (s : string) : bool :=
  match s with
  | EmptyString => true
  | String c rest => isNumberChar c && numeric rest
  end.

End Text.

(** * Properties *)

(** ** Sorting with [compareMultiple] *)

Section InsertionSort.

Variable A : Type.
Variable orders : list Lodash.Order.
Variable ok : Lodash.Decorated A -> Prop.

Let le (x y : Lodash.Decorated A) : Prop := Lodash.comesFirst orders x y = true.

Hypothesis le_total :
  forall x y, ok x -> ok y -> Lodash.comesFirst orders x y = false -> le y x.
Hypothesis le_trans :
  forall x y z, ok x -> ok y -> ok z -> le x y -> le y z -> le x z.

Lemma insert_perm (x : Lodash.Decorated A) (l : list (Lodash.Decorated A)) :
  Permutation (Lodash.insert orders x l) (x :: l).
Proof.
  induction l as [|y rest IH]; simpl.
  - apply Permutation_refl.
  - destruct (Lodash.comesFirst orders x y).
    + apply Permutation_refl.
    + apply perm_trans with (y :: x :: rest).
      * now apply perm_skip.
      * apply perm_swap.
Qed.

Lemma sortDecorated_perm (l : list (Lodash.Decorated A)) :
  Permutation (Lodash.sortDecorated orders l) l.
Proof.
  induction l as [|x rest IH]; simpl.
  - apply perm_nil.
  - apply perm_trans with (x :: Lodash.sortDecorated orders rest).
    + apply insert_perm.
    + now apply perm_skip.
Qed.

Lemma insert_sorted (x : Lodash.Decorated A) (l : list (Lodash.Decorated A)) :
  ok x -> Forall ok l -> StronglySorted le l ->
  StronglySorted le (Lodash.insert orders x l).
Proof.
  intros Hx Hok Hs.
  induction Hs as [|y rest Hrest IH Hy]; simpl.
  - constructor; [constructor | constructor].
  - inversion Hok as [|? ? Hoky Hokrest]; subst.
    destruct (Lodash.comesFirst orders x y) eqn:Hxy.
    + constructor.
      * now constructor.
      * constructor; [exact Hxy |].
        rewrite Forall_forall in *.
        intros z Hz.
        apply le_trans with y; auto.
    + constructor.
      * now apply IH.
      * apply Permutation_Forall with (x :: rest).
        -- apply Permutation_sym, insert_perm.
        -- constructor; [now apply le_total | exact Hy].
Qed.

Lemma sortDecorated_sorted (l : list (Lodash.Decorated A)) :
  Forall ok l -> StronglySorted le (Lodash.sortDecorated orders l).
Proof.
  induction l as [|x rest IH]; simpl; intros Hok.
  - constructor.
  - inversion Hok; subst.
    apply insert_sorted; auto.
    apply Permutation_Forall with rest; [|assumption].
    apply Permutation_sym, sortDecorated_perm.
Qed.

End InsertionSort.

(** ** The order that [onObserve] asks of [_.orderBy] *)

Section RankOrder.

Import Dom Ranking.

Lemma keyed_decorateFrom (i : nat) (l : list Entry) :
  Forall keyed (Lodash.decorateFrom keys i l).
Proof.
  revert i; induction l as [|x rest IH]; intros i; simpl.
  - constructor.
  - constructor; [reflexivity | apply IH].
Qed.

Lemma value_decorateFrom (A : Type) (its : list (A -> Q)) (i : nat) (l : list A) :
  List.map (@Lodash.value A) (Lodash.decorateFrom its i l) = l.
Proof.
  revert i; induction l as [|x rest IH]; intros i; simpl.
  - reflexivity.
  - now rewrite IH.
Qed.

(** On keyed entries [compareMultiple] is the lexicographic order: ratio
    downwards, then top upwards, then position. *)
Lemma comesFirst_keyed (d1 d2 : Lodash.Decorated Entry) :
  keyed d1 -> keyed d2 ->
  (Lodash.comesFirst orders d1 d2 = true <->
   (intersectionRatio (Lodash.value d2) < intersectionRatio (Lodash.value d1)
    \/ (intersectionRatio (Lodash.value d1) == intersectionRatio (Lodash.value d2)
        /\ (boundingClientRect_y (Lodash.value d1)
            < boundingClientRect_y (Lodash.value d2)
            \/ (boundingClientRect_y (Lodash.value d1)
                == boundingClientRect_y (Lodash.value d2)
                /\ (Lodash.index d1 <= Lodash.index d2)%nat))))%Q).
Proof.
  intros K1 K2.
  unfold Lodash.comesFirst, Lodash.compareMultiple.
  rewrite K1, K2; simpl.
  unfold Lodash.compareAscending.
  destruct (Qcompare_spec (intersectionRatio (Lodash.value d1))
                          (intersectionRatio (Lodash.value d2))) as [Hr|Hr|Hr];
    simpl.
  - destruct (Qcompare_spec (boundingClientRect_y (Lodash.value d1))
                            (boundingClientRect_y (Lodash.value d2)))
      as [Hy|Hy|Hy]; simpl.
    + destruct (Nat.compare_spec (Lodash.index d1) (Lodash.index d2)) as [Hi|Hi|Hi].
      * split; [intros _ | reflexivity].
        right; split; [exact Hr |]. right; split; [exact Hy | lia].
      * split; [intros _ | reflexivity].
        right; split; [exact Hr |]. right; split; [exact Hy | lia].
      * split; [discriminate |].
        intros [H|[_ [H|[_ H]]]]; [lra | lra | lia].
    + split; [intros _ | reflexivity].
      right; split; [exact Hr |]. now left.
    + split; [discriminate |].
      intros [H|[_ [H|[H _]]]]; lra.
  - split; [discriminate |].
    intros [H|[H _]]; lra.
  - split; [intros _ | reflexivity]. now left.
Qed.

Lemma comesFirst_total (x y : Lodash.Decorated Entry) :
  keyed x -> keyed y ->
  Lodash.comesFirst orders x y = false -> Lodash.comesFirst orders y x = true.
Proof.
  intros Kx Ky Hxy.
  apply (comesFirst_keyed Ky Kx).
  destruct (Qlt_le_dec (intersectionRatio (Lodash.value x))
                       (intersectionRatio (Lodash.value y))) as [Hr|Hr];
    [now left |].
  destruct (Qlt_le_dec (intersectionRatio (Lodash.value y))
                       (intersectionRatio (Lodash.value x))) as [Hr'|Hr'].
  { assert (Lodash.comesFirst orders x y = true) as E
        by (apply (comesFirst_keyed Kx Ky); now left).
    congruence. }
  right; split; [lra |].
  destruct (Qlt_le_dec (boundingClientRect_y (Lodash.value y))
                       (boundingClientRect_y (Lodash.value x))) as [Hy|Hy];
    [now left |].
  destruct (Qlt_le_dec (boundingClientRect_y (Lodash.value x))
                       (boundingClientRect_y (Lodash.value y))) as [Hy'|Hy'].
  { assert (Lodash.comesFirst orders x y = true) as E
        by (apply (comesFirst_keyed Kx Ky); right; split; [lra | now left]).
    congruence. }
  right; split; [lra |].
  destruct (Nat.le_gt_cases (Lodash.index y) (Lodash.index x)) as [Hi|Hi];
    [exact Hi |].
  assert (Lodash.comesFirst orders x y = true) as E.
  { apply (comesFirst_keyed Kx Ky); right; split; [lra |].
    right; split; [lra | lia]. }
  congruence.
Qed.

Lemma comesFirst_trans (x y z : Lodash.Decorated Entry) :
  keyed x -> keyed y -> keyed z ->
  Lodash.comesFirst orders x y = true ->
  Lodash.comesFirst orders y z = true ->
  Lodash.comesFirst orders x z = true.
Proof.
  intros Kx Ky Kz Hxy Hyz.
  apply (comesFirst_keyed Kx Ky) in Hxy.
  apply (comesFirst_keyed Ky Kz) in Hyz.
  apply (comesFirst_keyed Kx Kz).
  destruct Hxy as [Hxy|[Hxy Hxy']]; destruct Hyz as [Hyz|[Hyz Hyz']].
  - left; lra.
  - left; lra.
  - left; lra.
  - right; split; [lra |].
    destruct Hxy' as [Hxy'|[Hxy' Ixy]]; destruct Hyz' as [Hyz'|[Hyz' Iyz]].
    + left; lra.
    + left; lra.
    + left; lra.
    + right; split; [lra | lia].
Qed.

Lemma comesFirst_outranks (x y : Lodash.Decorated Entry) :
  keyed x -> keyed y ->
  Lodash.comesFirst orders x y = true ->
  outranks (Lodash.value x) (Lodash.value y).
Proof.
  intros Kx Ky H.
  apply (comesFirst_keyed Kx Ky) in H.
  unfold outranks.
  destruct H as [H|[H [H'|[H' _]]]]; split; intros; lra.
Qed.

Lemma outranks_refl (e : Entry) : outranks e e.
Proof. unfold outranks; split; intros; lra. Qed.

Lemma StronglySorted_map_on (A B : Type) (P : A -> Prop)
      (R : A -> A -> Prop) (R' : B -> B -> Prop) (f : A -> B) (l : list A) :
  (forall a b, P a -> P b -> R a b -> R' (f a) (f b)) ->
  Forall P l -> StronglySorted R l -> StronglySorted R' (List.map f l).
Proof.
  intros Hf Hp Hs.
  induction Hs as [|a rest Hrest IH Ha]; simpl.
  - constructor.
  - inversion Hp as [|? ? Pa Prest]; subst.
    constructor; [now apply IH |].
    rewrite Forall_forall in *.
    intros b Hb.
    apply in_map_iff in Hb as [a' [<- Ha']].
    apply Hf; auto.
Qed.

Lemma orderBy_perm (batch : list Entry) :
  Permutation (Lodash.orderBy batch keys orders) batch.
Proof.
  unfold Lodash.orderBy.
  rewrite <- (value_decorateFrom keys 0 batch) at 2.
  apply Permutation_map, sortDecorated_perm.
Qed.

Lemma orderBy_sorted (batch : list Entry) :
  StronglySorted outranks (Lodash.orderBy batch keys orders).
Proof.
  unfold Lodash.orderBy.
  assert (Forall keyed (Lodash.sortDecorated orders (Lodash.decorateFrom keys 0 batch)))
    as Hk.
  { apply Permutation_Forall with (Lodash.decorateFrom keys 0 batch).
    - apply Permutation_sym, sortDecorated_perm.
    - apply keyed_decorateFrom. }
  apply StronglySorted_map_on
    with (P := keyed) (R := fun x y => Lodash.comesFirst orders x y = true).
  - intros a b Ka Kb; now apply comesFirst_outranks.
  - exact Hk.
  - apply sortDecorated_sorted with (ok := keyed).
    + intros x y; apply comesFirst_total.
    + intros x y z; apply comesFirst_trans.
    + apply keyed_decorateFrom.
Qed.

End RankOrder.

(** ** What [onObserve] reports *)

Section OnObserve.

Import Js Dom Observer Ranking Scenario.

Lemma outranks_markInView_l (a b : Entry) :
  outranks a b -> outranks (markInView a) b.
Proof. unfold outranks; simpl; tauto. Qed.

Lemma orderBy_nonempty (batch : list Entry) :
  batch <> [] ->
  exists first others, Lodash.orderBy batch keys orders = first :: others.
Proof.
  intros Hne.
  destruct (Lodash.orderBy batch keys orders) as [|first others] eqn:E.
  - pose proof (orderBy_perm batch) as P.
    rewrite E in P.
    apply Permutation_nil in P; contradiction.
  - now exists first, others.
Qed.

(** [onObserve] on a batch that is not empty: the sorted batch, with its
    first entry marked when it passes the gate. *)
Lemma onObserve_unfold (opts : Options) (batch : list Entry) :
  batch <> [] ->
  exists first others,
    Lodash.orderBy batch keys orders = first :: others
    /\ Permutation (first :: others) batch
    /\ StronglySorted outranks (first :: others)
    /\ onObserve opts batch
       = Normal
           (let first' :=
              if Qle_bool (visibleThreshold opts) (intersectionRatio first)
                 || forceItem opts
              then markInView first else first in
            {| identifier :=
                 if inView first'
                 then Some (getAttribute (target first') (attribute opts))
                 else None;
               sample := if inView first' then Some first' else None;
               rankedList := first' :: others |}).
Proof.
  intros Hne.
  destruct (orderBy_nonempty Hne) as [first [others E]].
  exists first, others.
  split; [exact E |].
  split; [rewrite <- E; apply orderBy_perm |].
  split; [rewrite <- E; apply orderBy_sorted |].
  unfold onObserve.
  fold keys; fold orders.
  rewrite E; reflexivity.
Qed.

Lemma sorted_head_mostVisible (first : Entry) (others batch : list Entry) :
  Permutation (first :: others) batch ->
  StronglySorted outranks (first :: others) ->
  mostVisible first batch.
Proof.
  intros P S.
  split.
  - apply Permutation_in with (first :: others); [exact P | now left].
  - intros e' He'.
    apply Permutation_in with (l' := first :: others) in He';
      [| now apply Permutation_sym].
    destruct He' as [<-|He'].
    + apply outranks_refl.
    + apply StronglySorted_inv in S as [_ F].
      rewrite Forall_forall in F; now apply F.
Qed.

Lemma fresh_head (first : Entry) (others batch : list Entry) :
  Permutation (first :: others) batch ->
  Forall fresh batch ->
  fresh first /\ Forall fresh others.
Proof.
  intros P F.
  assert (Forall fresh (first :: others)) as F'.
  { apply Permutation_Forall with batch; [now apply Permutation_sym | exact F]. }
  now inversion F'.
Qed.

(** C1: for every non-empty batch, the sample that [onObserve] reports as
    active (when it reports one) is the top of the ranking: no sample of
    the batch has a larger [intersectionRatio], and none with the same
    ratio has a smaller top; the list passed to the callback holds the
    whole batch in ranked order.  For the three samples with ratios 0.9,
    0.95, 0.3 and tops 10, 20, 5 the winner is the sample with ratio 0.95
    and the ranked list is samples 1, 0, 2. *)
Theorem onObserve_reports_most_visible :
  (forall (opts : Options) (batch : list Entry),
      batch <> [] -> Forall fresh batch ->
      exists n,
        onObserve opts batch = Normal n
        /\ List.length (rankedList n) = List.length batch
        /\ StronglySorted outranks (rankedList n)
        /\ forall s, sample n = Some s ->
             exists e, mostVisible e batch
                       /\ s = markInView e
                       /\ hd_error (rankedList n) = Some s)
  /\ (forall opts : Options,
         exists n,
           onObserve opts threeSamples = Normal n
           /\ List.map target (rankedList n) = [itemB; itemA; itemC]
           /\ List.map intersectionRatio (rankedList n) = [0.95; 0.9; 0.3]%Q
           /\ List.length (rankedList n) = 3%nat)
  /\ onObserve (defaults (config VUndefined)) threeSamples
     = Normal
         {| identifier := Some (Some "b"%string);
            sample := Some (markInView (browserEntry itemB 0.95 20));
            rankedList := [markInView (browserEntry itemB 0.95 20);
                           browserEntry itemA 0.9 10;
                           browserEntry itemC 0.3 5] |}.
Proof.
  split; [| split].
  - intros opts batch Hne Hfresh.
    destruct (onObserve_unfold opts Hne) as [first [others [E [P [S Hn]]]]].
    destruct (fresh_head P Hfresh) as [Ffirst Fothers].
    eexists; split; [exact Hn |].
    cbv zeta.
    destruct (Qle_bool (visibleThreshold opts) (intersectionRatio first)
              || forceItem opts) eqn:G; simpl.
    + split; [apply (Permutation_length P) |].
      split.
      * apply StronglySorted_inv in S as [S1 S2].
        constructor; [exact S1 |].
        revert S2; apply Forall_impl; intros a; apply outranks_markInView_l.
      * intros s Hs; inversion Hs; subst s.
        exists first.
        split; [apply (sorted_head_mostVisible P S) |].
        split; reflexivity.
    + rewrite Ffirst; simpl.
      split; [apply (Permutation_length P) |].
      split; [exact S |].
      intros s Hs; discriminate.
  - intros opts.
    assert (Lodash.orderBy threeSamples keys orders
            = [browserEntry itemB 0.95 20; browserEntry itemA 0.9 10;
               browserEntry itemC 0.3 5]) as E by (vm_compute; reflexivity).
    unfold onObserve; fold keys; fold orders; rewrite E.
    eexists; split; [reflexivity |].
    cbv zeta; simpl rankedList.
    destruct (Qle_bool (visibleThreshold opts) _ || forceItem opts);
      repeat split.
  - vm_compute; reflexivity.
Qed.

(** C1 at the three samples of the example. *)
Lemma onObserve_reports_most_visible_witness :
  threeSamples <> [] /\ Forall fresh threeSamples
  /\ exists n,
       onObserve (defaults (config VUndefined)) threeSamples = Normal n
       /\ List.length (rankedList n) = List.length threeSamples
       /\ StronglySorted outranks (rankedList n)
       /\ forall s, sample n = Some s ->
            exists e, mostVisible e threeSamples
                      /\ s = markInView e
                      /\ hd_error (rankedList n) = Some s.
Proof.
  assert (threeSamples <> []) as Hne by discriminate.
  assert (Forall fresh threeSamples) as Hf
      by (repeat constructor).
  split; [exact Hne |].
  split; [exact Hf |].
  exact (proj1 onObserve_reports_most_visible
               (defaults (config VUndefined)) threeSamples Hne Hf).
Defined.

End OnObserve.

(** ** The gate on the top-ranked sample *)

Section Gate.

Import Js Dom Observer Ranking Scenario Setup.

(** C2: for every non-empty batch, the top-ranked sample is marked active
    exactly when its [intersectionRatio] is at least [visibleThreshold] or
    [forceItem] is set; the callback then gets the identifier and the
    sample of the top-ranked entry, and otherwise gets neither.  With the
    threshold 0.85 and no forcing, a top ratio of 0.80 gives no identifier
    and 0.85 or 0.90 give the identifier of the top sample; with forcing,
    a top ratio of 0.10 still gives it. *)
Theorem onObserve_threshold_gate :
  (forall (opts : Options) (batch : list Entry),
      batch <> [] -> Forall fresh batch ->
      exists n top others s,
        onObserve opts batch = Normal n
        /\ Lodash.orderBy batch keys orders = top :: others
        /\ rankedList n = s :: others
        /\ target s = target top
        /\ (inView s = true <->
            (visibleThreshold opts <= intersectionRatio top)%Q
            \/ forceItem opts = true)
        /\ (inView s = true ->
            identifier n = Some (getAttribute (target top) (attribute opts))
            /\ sample n = Some s)
        /\ (inView s = false -> identifier n = None /\ sample n = None))
  /\ identifier_of (onObserve (gated false) (oneSample 0.80)) = Some None
  /\ identifier_of (onObserve (gated false) (oneSample 0.85))
     = Some (Some (getAttribute itemA "data-id"))
  /\ identifier_of (onObserve (gated false) (oneSample 0.90))
     = Some (Some (getAttribute itemA "data-id"))
  /\ identifier_of (onObserve (gated true) (oneSample 0.10))
     = Some (Some (getAttribute itemA "data-id"))
  /\ getAttribute itemA "data-id" = Some "a"%string.
Proof.
  split.
  - intros opts batch Hne Hfresh.
    destruct (onObserve_unfold opts Hne) as [top [others [E [P [S Hn]]]]].
    destruct (fresh_head P Hfresh) as [Ftop _].
    cbv zeta in Hn.
    destruct (Qle_bool (visibleThreshold opts) (intersectionRatio top)) eqn:G;
      [| destruct (forceItem opts) eqn:F];
      simpl in Hn.
    + eexists; exists top, others, (markInView top).
      split; [exact Hn |]; simpl.
      split; [exact E |].
      split; [reflexivity |].
      split; [reflexivity |].
      split; [split; [intros _; left; now apply Qle_bool_iff | reflexivity] |].
      split; [intros _; now split | discriminate].
    + eexists; exists top, others, (markInView top).
      split; [exact Hn |]; simpl.
      split; [exact E |].
      split; [reflexivity |].
      split; [reflexivity |].
      split; [split; [intros _; now right | reflexivity] |].
      split; [intros _; now split | discriminate].
    + rewrite Ftop in Hn.
      eexists; exists top, others, top.
      split; [exact Hn |]; simpl.
      split; [exact E |].
      split; [reflexivity |].
      split; [reflexivity |].
      split.
      * rewrite Ftop; split; [discriminate |].
        intros [H|H]; [| discriminate].
        apply Qle_bool_iff in H; congruence.
      * split; [rewrite Ftop; discriminate | intros _; now split].
  - repeat split; vm_compute; reflexivity.
Qed.

(** C2 at the forced sample of ratio 0.10. *)
Lemma onObserve_threshold_gate_witness :
  oneSample 0.10 <> [] /\ Forall fresh (oneSample 0.10)
  /\ exists n top others s,
       onObserve (gated true) (oneSample 0.10) = Normal n
       /\ Lodash.orderBy (oneSample 0.10) keys orders = top :: others
       /\ rankedList n = s :: others
       /\ target s = target top
       /\ (inView s = true <->
           (visibleThreshold (gated true) <= intersectionRatio top)%Q
           \/ forceItem (gated true) = true)
       /\ (inView s = true ->
           identifier n
           = Some (getAttribute (target top) (attribute (gated true)))
           /\ sample n = Some s)
       /\ (inView s = false -> identifier n = None /\ sample n = None).
Proof.
  assert (oneSample 0.10 <> []) as Hne by discriminate.
  assert (Forall fresh (oneSample 0.10)) as Hf by (repeat constructor).
  split; [exact Hne |].
  split; [exact Hf |].
  exact (proj1 onObserve_threshold_gate (gated true) (oneSample 0.10) Hne Hf).
Defined.

(** C7: in every processed batch at most one entry is marked active, and
    it can only be the top-ranked one: the entries behind it are never
    marked.  When the top-ranked entry is not active the callback gets no
    identifier and no sample, and still the whole batch, ranked. *)
Theorem onObserve_at_most_one_active :
  forall (opts : Options) (batch : list Entry),
    batch <> [] -> Forall fresh batch ->
    exists n,
      onObserve opts batch = Normal n
      /\ (activeCount (rankedList n) <= 1)%nat
      /\ Forall fresh (tl (rankedList n))
      /\ (activeCount (rankedList n) = 1%nat ->
          exists s, hd_error (rankedList n) = Some s
                    /\ sample n = Some s /\ identifier n <> None)
      /\ (activeCount (rankedList n) = 0%nat ->
          identifier n = None /\ sample n = None
          /\ Permutation (rankedList n) batch
          /\ StronglySorted outranks (rankedList n)).
Proof.
  intros opts batch Hne Hfresh.
  destruct (onObserve_unfold opts Hne) as [top [others [E [P [S Hn]]]]].
  destruct (fresh_head P Hfresh) as [Ftop Fothers].
  assert (List.filter inView others = []) as Hnone.
  { clear - Fothers.
    induction Fothers as [|x l Hx _ IH]; simpl; [reflexivity |].
    unfold fresh in Hx; now rewrite Hx. }
  eexists; split; [exact Hn |].
  cbv zeta.
  destruct (Qle_bool (visibleThreshold opts) (intersectionRatio top)
            || forceItem opts); unfold activeCount; simpl.
  - rewrite Hnone; simpl.
    split; [lia |].
    split; [exact Fothers |].
    split.
    + intros _; eexists; split; [reflexivity |].
      split; [reflexivity | discriminate].
    + discriminate.
  - rewrite Ftop; simpl; rewrite Hnone; simpl.
    split; [lia |].
    split; [exact Fothers |].
    split; [discriminate |].
    intros _; repeat split; assumption.
Qed.

(** C7 at the three samples of the ranking example. *)
Lemma onObserve_at_most_one_active_witness :
  threeSamples <> [] /\ Forall fresh threeSamples
  /\ exists n,
       onObserve (gated false) threeSamples = Normal n
       /\ (activeCount (rankedList n) <= 1)%nat
       /\ Forall fresh (tl (rankedList n))
       /\ (activeCount (rankedList n) = 1%nat ->
           exists s, hd_error (rankedList n) = Some s
                     /\ sample n = Some s /\ identifier n <> None)
       /\ (activeCount (rankedList n) = 0%nat ->
           identifier n = None /\ sample n = None
           /\ Permutation (rankedList n) threeSamples
           /\ StronglySorted outranks (rankedList n)).
Proof.
  assert (threeSamples <> []) as Hne by discriminate.
  assert (Forall fresh threeSamples) as Hf by (repeat constructor).
  split; [exact Hne |].
  split; [exact Hf |].
  exact (onObserve_at_most_one_active (gated false) Hne Hf).
Defined.

End Gate.

(** ** Construction and registration *)

Section Construction.

Import Js Dom Observer Setup Scenario.

Lemma callback_observe (C : Type) (e : Element) (io : IntersectionObserver C) :
  callback (observe e io) = callback io.
Proof. unfold observe; now destruct (isObserved io e). Qed.

Lemma isObserved_observe (C : Type) (e : Element) (io : IntersectionObserver C) :
  isObserved (observe e io) e = true.
Proof.
  unfold observe.
  destruct (isObserved io e) eqn:E; [exact E |].
  unfold isObserved; simpl.
  rewrite existsb_app; simpl.
  unfold sameNode at 2; rewrite Nat.eqb_refl.
  now rewrite orb_true_r.
Qed.

Lemma isObserved_observe_mono (C : Type) (e x : Element)
      (io : IntersectionObserver C) :
  isObserved io x = true -> isObserved (observe e io) x = true.
Proof.
  unfold observe.
  destruct (isObserved io e); [trivial |].
  unfold isObserved; simpl; intros H.
  now rewrite existsb_app, H.
Qed.

Lemma allElements_map_Some (l : list Element) :
  allElements (List.map Some l) = Some l.
Proof.
  induction l as [|e rest IH]; simpl; [reflexivity |].
  now rewrite IH.
Qed.

Lemma arrayOf_map_Some (l : list Element) :
  arrayOf (Lodash.mapIdentity (List.map Some l)) = VArray l.
Proof.
  unfold Lodash.mapIdentity, arrayOf.
  now rewrite map_id, allElements_map_Some.
Qed.

Lemma contents_elementsAmong (its : list (option Element)) :
  forallb (fun it => match it with Some _ => true | None => false end) its
  = true ->
  its = List.map Some (elementsAmong its).
Proof.
  induction its as [|[e|] rest IH]; simpl; intros H;
    [reflexivity | | discriminate].
  now rewrite <- IH.
Qed.

Lemma observerObserve_outcome (e : Element) (t : Observer) :
  snd (observerObserve e t) = Returned
  \/ snd (observerObserve e t) = Thrown TypeError.
Proof. unfold observerObserve; destruct (observer t); simpl; auto. Qed.

Lemma forEachObserve_options (its : list (option Element)) (t : Observer) :
  options (fst (forEachObserve its t)) = options t.
Proof.
  revert t; induction its as [|[e|] rest IH]; intros t; simpl;
    try reflexivity.
  unfold observerObserve.
  destruct (observer t) as [io|]; simpl; [| reflexivity].
  now rewrite IH.
Qed.

Lemma forEachObserve_capable (l : list Element) (t : Observer)
      (io : IntersectionObserver Callback) :
  observer t = Some io ->
  exists io',
    forEachObserve (List.map Some l) t
    = ({| options := options t; observer := Some io' |}, Returned)
    /\ callback io' = callback io
    /\ (forall e, In e l -> isObserved io' e = true)
    /\ (forall e, isObserved io e = true -> isObserved io' e = true).
Proof.
  revert t io; induction l as [|x rest IH]; intros t io Hio; simpl.
  - exists io; destruct t as [o ob]; simpl in *; subst ob.
    repeat split; auto; intros e [].
  - unfold observerObserve; rewrite Hio.
    destruct (IH {| options := options t; observer := Some (observe x io) |}
                 (observe x io) eq_refl) as [io' [E [C [I M]]]].
    exists io'; simpl in E.
    split; [exact E |].
    split; [now rewrite C, callback_observe |].
    split.
    + intros e [<-|He]; [apply M, isObserved_observe | now apply I].
    + intros e He; apply M; now apply isObserved_observe_mono.
Qed.

(** An item that is not an element stops the registration. *)
Lemma forEachObserve_rejected (its : list (option Element)) (t : Observer) :
  forallb (fun it => match it with Some _ => true | None => false end) its
  = false ->
  snd (forEachObserve its t) = Thrown TypeError.
Proof.
  revert t; induction its as [|[e|] rest IH]; intros t; simpl; intros H;
    [discriminate | | reflexivity].
  unfold observerObserve.
  destruct (observer t) as [io|]; [| reflexivity].
  now apply IH.
Qed.

(** Registration on a tracker that has its observer, of an argument that
    it accepts: the call returns, the installed callback and the settings
    stay, and every element passed is watched afterwards. *)
Lemma addElements_capable (els : Value) (t : Observer)
      (io : IntersectionObserver Callback) :
  observer t = Some io ->
  accepts (elements (options t)) els = true ->
  exists t' io',
    addElements els t = (t', Returned)
    /\ observer t' = Some io'
    /\ callback io' = callback io
    /\ settings (options t') = settings (options t)
    /\ (forall e, In e (members els) -> isObserved io' e = true).
Proof.
  intros Hio Hacc.
  assert (forall (l : list Element) (registry : Value),
             exists t' io',
               forEachObserve (List.map Some l)
                 {| options := setElements registry (options t);
                    observer := observer t |}
               = (t', Returned)
               /\ observer t' = Some io'
               /\ callback io' = callback io
               /\ settings (options t') = settings (options t)
               /\ (forall e, In e l -> isObserved io' e = true)) as Hall.
  { intros l registry.
    destruct (@forEachObserve_capable l
                {| options := setElements registry (options t);
                   observer := observer t |} io Hio) as [io' [E [C [I _]]]].
    eexists; exists io'.
    split; [exact E |]; simpl.
    repeat split; auto. }
  destruct els as [|e|l|c|s]; unfold addElements.
  - exists t, io; repeat split; auto; intros e [].
  - cbn [Lodash.isArrayLike Lodash.isElement].
    simpl in Hacc.
    assert (exists registry,
               (if Lodash.isArrayLike (elements (options t))
                then push e (elements (options t))
                else Some (VArray [e])) = Some registry) as [registry ->].
    { destruct (elements (options t)) as [| | |c|]; simpl in *;
        try (eexists; reflexivity); try discriminate.
      rewrite Hacc; eexists; reflexivity. }
    unfold observerObserve; simpl; rewrite Hio.
    eexists; exists (observe e io).
    split; [reflexivity |]; simpl.
    split; [reflexivity |].
    split; [apply callback_observe |].
    split; [reflexivity |].
    intros x [<-|[]]; apply isObserved_observe.
  - cbn [Lodash.isArrayLike forEach members].
    apply Hall.
  - cbn [Lodash.isArrayLike forEach members].
    simpl in Hacc; apply andb_true_iff in Hacc as [F A].
    rewrite F.
    pose proof (contents_elementsAmong _ A) as Hc.
    destruct (Hall (elementsAmong (contents c))
                   (if Lodash.isArrayLike (elements (options t))
                    then arrayOf (Lodash.mapIdentity
                                    (indexed (elements (options t))))
                    else VCollection c))
      as [t' [io' [E R]]].
    rewrite <- Hc in E.
    exists t', io'; split; [exact E | exact R].
  - discriminate.
Qed.

(** Registration of an argument that the tracker does not accept ends
    in a [TypeError]. *)
Lemma addElements_rejected (els : Value) (t : Observer) :
  accepts (elements (options t)) els = false ->
  snd (addElements els t) = Thrown TypeError.
Proof.
  destruct els as [|e|l|c|s]; unfold addElements; simpl;
    try discriminate; try reflexivity.
  - destruct (elements (options t)) as [| | |r|]; simpl;
      try discriminate; try reflexivity.
    now intros ->.
  - destruct (hasForEach c); simpl; [| reflexivity].
    apply forEachObserve_rejected.
Qed.

Lemma constructor_capable (raw : RawOptions) :
  constructs (rawElements raw) = true ->
  exists t io,
    constructor (Browser true) raw = Normal t
    /\ observer t = Some io
    /\ settings (options t) = settings (defaults raw)
    /\ callback io
       = match throttle (defaults raw) with
         | ThrottleMs ms =>
             if (ms =? 0)%Z then Bound
             else Throttled (Lodash.throttle (list Entry) ms)
         | _ => Bound
         end.
Proof.
  intros Hc; unfold constructs in Hc.
  unfold constructor.
  set (io0 := {| callback := _; Dom.root := _; threshold := _; targets := _ |}).
  assert (callback io0
          = match throttle (defaults raw) with
            | ThrottleMs ms =>
                if (ms =? 0)%Z then Bound
                else Throttled (Lodash.throttle (list Entry) ms)
            | _ => Bound
            end) as Hcb.
  { unfold io0; cbn [callback].
    generalize (throttle (defaults raw)); intros [| |ms]; simpl;
      try reflexivity.
    now destruct (ms =? 0)%Z. }
  change (elements (defaults raw)) with (rawElements raw).
  assert (exists t io,
             (if truthy (rawElements raw)
              then match addElements (rawElements raw)
                           {| options := defaults raw; observer := Some io0 |}
                   with
                   | (this1, Returned) => Normal this1
                   | (_, Thrown e) => Throw e
                   end
              else Normal {| options := defaults raw; observer := Some io0 |})
             = Normal t
             /\ observer t = Some io
             /\ settings (options t) = settings (defaults raw)
             /\ callback io = callback io0) as [t [io [E [O [S C]]]]].
  { destruct (truthy (rawElements raw)); simpl in Hc.
    - destruct (@addElements_capable (rawElements raw)
                  {| options := defaults raw; observer := Some io0 |} io0
                  eq_refl Hc)
        as [t' [io' [E [O [C [S _]]]]]].
      rewrite E.
      exists t', io'; repeat split; auto.
    - exists {| options := defaults raw; observer := Some io0 |}, io0.
      repeat split; auto. }
  exists t, io.
  destruct (root (defaults raw)); repeat split; auto; congruence.
Qed.

(** With a value of [options.elements] that is not accepted the
    constructor ends in a [TypeError]. *)
Lemma constructor_rejected (raw : RawOptions) :
  constructs (rawElements raw) = false ->
  constructor (Browser true) raw = Throw TypeError.
Proof.
  intros Hc; unfold constructs in Hc.
  apply orb_false_iff in Hc as [T A].
  apply negb_false_iff in T.
  unfold constructor.
  set (t0 := {| options := defaults raw; observer := _ |}).
  change (elements (defaults raw)) with (rawElements raw).
  rewrite T.
  pose proof (@addElements_rejected (rawElements raw) t0 A) as R.
  destruct (addElements (rawElements raw) t0) as [t1 o]; simpl in R; subst o.
  now destruct (root (defaults raw)).
Qed.

(** A form element, array-like by its controls but without [forEach],
    and a string are not registered: the constructor throws. *)
Example constructor_throws_on_form_or_string :
  constructor (Browser true)
    (config (VCollection {| contents := [Some itemA; Some itemB];
                            hasForEach := false; hasPush := false |}))
  = Throw TypeError
  /\ constructor (Browser true) (config (VString ".item")) = Throw TypeError.
Proof. split; apply constructor_rejected; reflexivity. Qed.

(** Whenever the constructor returns in a capable browser, the tracker
    has its observer with the callback that the throttle option picks. *)
Lemma constructor_returned (raw : RawOptions) (t : Observer) :
  constructor (Browser true) raw = Normal t ->
  exists io,
    observer t = Some io
    /\ settings (options t) = settings (defaults raw)
    /\ callback io
       = match throttle (defaults raw) with
         | ThrottleMs ms =>
             if (ms =? 0)%Z then Bound
             else Throttled (Lodash.throttle (list Entry) ms)
         | _ => Bound
         end.
Proof.
  intros E.
  destruct (constructs (rawElements raw)) eqn:Hc.
  - destruct (constructor_capable raw Hc) as [t' [io [E' R]]].
    rewrite E in E'; inversion E'; subst t'.
    exists io; exact R.
  - rewrite (constructor_rejected raw Hc) in E; discriminate.
Qed.

Lemma constructor_settings (env : Env) (raw : RawOptions) (t : Observer) :
  constructor env raw = Normal t ->
  settings (options t) = settings (defaults raw).
Proof.
  destruct env as [|[|]].
  - unfold constructor.
    destruct (root (defaults raw)); discriminate.
  - intros H.
    destruct (constructor_returned raw H) as [io [_ [S _]]]; exact S.
  - unfold constructor.
    destruct (root (defaults raw)); intros H; inversion H; reflexivity.
Qed.

End Construction.

(** ** The defaults of the constructor *)

Section Defaults.

Import Js Dom Observer Setup Scenario Ranking.

Lemma deliverable_nonempty (C : Type) (io : IntersectionObserver C)
      (entries : list Entry) :
  deliverable io entries = true -> entries <> [].
Proof. destruct entries; [discriminate | discriminate]. Qed.

Lemma onObserve_returns (opts : Options) (entries : list Entry) :
  entries <> [] -> exists n, onObserve opts entries = Normal n.
Proof.
  intros Hne.
  destruct (onObserve_unfold opts Hne) as [first [others [_ [_ [_ E]]]]].
  eexists; exact E.
Qed.

(** With the bound [onObserve] as callback, a batch that the browser
    delivers is processed when it arrives. *)
Lemma handle_deliver_bound (w : World) (io : IntersectionObserver Callback)
      (time : Z) (entries : list Entry) :
  observer (this w) = Some io ->
  callback io = Bound ->
  deliverable io entries = true ->
  exists n,
    onObserve (options (this w)) entries = Normal n
    /\ handle time (Deliver entries) w
       = {| this := this w; calls := calls w ++ [(time, n)];
            uncaught := uncaught w |}.
Proof.
  intros O C D.
  pose proof (@deliverable_nonempty _ io entries D) as Hne.
  destruct (onObserve_returns (options (this w)) Hne) as [n Hn].
  exists n; split; [exact Hn |].
  simpl; rewrite O, D.
  unfold invokeCallback; rewrite O, C.
  unfold process; now rewrite Hn.
Qed.

(** C3, as the code has it: only [throttle: false] disables throttling,
    and then every delivered batch is processed at once by the bound
    [onObserve]; when the option is left out or is 0 the callback is
    wrapped by [_.throttle] with the default wait of 150ms, and any other
    number of milliseconds is the wait.  This holds of every tracker that
    the constructor returns, and it returns one unless [options.elements]
    is a value that [addElements] does not accept. *)
Theorem only_false_disables_throttling :
  (forall (raw : RawOptions) (t : Observer),
      constructor (Browser true) raw = Normal t ->
      installed t
           = Some
               match rawThrottle raw with
               | ThrottleFalse => Bound
               | ThrottleUnset => Throttled (Lodash.throttle (list Entry) 150)
               | ThrottleMs ms =>
                   if (ms =? 0)%Z
                   then Throttled (Lodash.throttle (list Entry) 150)
                   else Throttled (Lodash.throttle (list Entry) ms)
               end
      /\ (installed t = Some Bound <-> rawThrottle raw = ThrottleFalse))
  /\ (forall raw : RawOptions,
         if constructs (rawElements raw)
         then exists t, constructor (Browser true) raw = Normal t
         else constructor (Browser true) raw = Throw TypeError)
  /\ (forall (w : World) (io : IntersectionObserver Callback) (time : Z)
             (entries : list Entry),
         observer (this w) = Some io ->
         callback io = Bound ->
         deliverable io entries = true ->
         exists n,
           onObserve (options (this w)) entries = Normal n
           /\ handle time (Deliver entries) w
              = {| this := this w; calls := calls w ++ [(time, n)];
                   uncaught := uncaught w |}).
Proof.
  split; [| split].
  - intros raw t E.
    destruct (constructor_returned raw E) as [io [O [_ C]]].
    unfold installed; rewrite O; simpl; rewrite C.
    unfold defaults; cbn [throttle].
    destruct (rawThrottle raw) as [| |ms]; simpl.
    + split; [reflexivity | split; discriminate].
    + split; [reflexivity | split; reflexivity].
    + unfold defaultThrottle; simpl.
      destruct (ms =? 0)%Z eqn:Z0; simpl; [| rewrite Z0];
        (split; [reflexivity | split; discriminate]).
  - intros raw.
    destruct (constructs (rawElements raw)) eqn:Hc.
    + destruct (constructor_capable raw Hc) as [t [_ [E _]]].
      exists t; exact E.
    + now apply constructor_rejected.
  - intros w io time entries; apply handle_deliver_bound.
Qed.

(** C3 at the options of the example with [throttle: false]. *)
Lemma only_false_disables_throttling_witness :
  exists t,
    constructor (Browser true)
                (withThrottle ThrottleFalse (config (VArray [itemA]))) = Normal t
    /\ installed t = Some Bound.
Proof.
  destruct (proj1 (proj2 only_false_disables_throttling)
                  (withThrottle ThrottleFalse (config (VArray [itemA]))))
    as [t E].
  exists t; split; [exact E |].
  exact (proj1 (proj1 only_false_disables_throttling
                      (withThrottle ThrottleFalse (config (VArray [itemA])))
                      t E)).
Defined.

(** C3 as stated fails: with [throttle: 0] the callback is the throttled
    one, with the default wait, and a second batch 10ms after the first
    is not processed when it arrives. *)
Lemma throttle_zero_is_not_disabled :
  ~ (forall v : ThrottleValue,
        v = ThrottleFalse \/ v = ThrottleMs 0 ->
        forall t,
          constructor (Browser true) (withThrottle v (config (VArray [itemA])))
          = Normal t ->
          installed t = Some Bound)
  /\ option_map
       (fun w => trace (run [(0, Deliver (oneSample 0.9));
                             (10, Deliver (oneSample 0.2))]%Z w))
       (started (Browser true)
                (withThrottle (ThrottleMs 0) (config (VArray [itemA]))))
     = Some [(0%Z, [0.9%Q])].
Proof.
  split.
  - intros H.
    specialize (H (ThrottleMs 0) (or_intror eq_refl) _ eq_refl).
    vm_compute in H; discriminate.
  - vm_compute; reflexivity.
Qed.

(** C10: a configured [visibleThreshold] of 0 is replaced by 0.85, as every
    falsy value is; no configuration yields the threshold 0, and a sample
    half in view is then not active although its ratio is above 0. *)
Theorem zero_visibleThreshold_is_defaulted :
  forall (raw : RawOptions) (q : Q),
    (q == 0)%Q ->
    visibleThreshold (defaults (withVisibleThreshold q raw)) = 0.85%Q
    /\ (forall env t,
           constructor env (withVisibleThreshold q raw) = Normal t ->
           visibleThreshold (options t) = 0.85%Q)
    /\ (forall raw' : RawOptions, ~ (visibleThreshold (defaults raw') == 0)%Q)
    /\ (forall (opts : Options) (batch : list Entry),
           (visibleThreshold opts == 0)%Q ->
           batch <> [] ->
           Forall (fun e => 0 <= intersectionRatio e)%Q batch ->
           exists n s, onObserve opts batch = Normal n /\ sample n = Some s)
    /\ onObserve (defaults (withVisibleThreshold 0 (config VUndefined)))
                 (oneSample 0.5)
       = Normal {| identifier := None; sample := None;
                   rankedList := oneSample 0.5 |}.
Proof.
  intros raw q Hq.
  assert (visibleThreshold (defaults (withVisibleThreshold q raw)) = 0.85%Q) as H.
  { unfold defaults, withVisibleThreshold; simpl.
    unfold numberTruthy.
    now rewrite (Qeq_eq_bool _ _ Hq). }
  split; [exact H |].
  split.
  - intros env t E.
    apply constructor_settings in E.
    unfold settings in E.
    injection E as _ _ Hv _ _.
    rewrite Hv; exact H.
  - split; [| split; [| vm_compute; reflexivity]].
    + intros raw'.
      unfold defaults; simpl.
      unfold defaultVisibleThreshold, numberTruthy.
      destruct (rawVisibleThreshold raw') as [v|].
      * destruct (Qeq_bool v 0) eqn:Ev; simpl.
        -- intros A; vm_compute in A; discriminate.
        -- now apply Qeq_bool_neq.
      * intros A; vm_compute in A; discriminate.
    + intros opts batch Hz Hne Hpos.
      destruct (onObserve_unfold opts Hne) as [top [others [_ [P [_ Hn]]]]].
      assert (0 <= intersectionRatio top)%Q as Htop.
      { rewrite Forall_forall in Hpos; apply Hpos.
        apply Permutation_in with (top :: others); [exact P | now left]. }
      assert (Qle_bool (visibleThreshold opts) (intersectionRatio top) = true)
        as G by (apply Qle_bool_iff; rewrite Hz; exact Htop).
      cbv zeta in Hn; rewrite G in Hn; simpl in Hn.
      eexists; eexists; split; [exact Hn | reflexivity].
Qed.

(** C10 at the configuration [{visibleThreshold: 0}]. *)
Lemma zero_visibleThreshold_is_defaulted_witness :
  visibleThreshold (defaults (withVisibleThreshold 0 (config VUndefined)))
  = 0.85%Q.
Proof.
  exact (proj1 (zero_visibleThreshold_is_defaulted
                  (config VUndefined) (q := 0) (Qeq_refl 0))).
Defined.

End Defaults.

(** ** Registration without an observer, and the registry *)

Section Registration.

Import Js Dom Observer Setup Scenario.

(** C4, where the code departs from it: in a browser without
    [IntersectionObserver] the constructor returns a tracker that has no
    [observer], and [addElements] with an element, or with an array that
    is not empty, then ends in a [TypeError] ([this.observer] is
    [undefined]); outside a browser the constructor itself ends in a
    [ReferenceError].  [stop] is the call that checks for the observer. *)
Theorem addElements_throws_without_observer :
  (forall raw : RawOptions,
      constructor (Browser false) raw
      = Normal {| options := defaults raw; observer := None |})
  /\ (forall (opts : Options) (e : Element),
         snd (addElements (VElement e) {| options := opts; observer := None |})
         = Thrown TypeError)
  /\ (forall (opts : Options) (e : Element) (l : list Element),
         snd (addElements (VArray (e :: l))
                          {| options := opts; observer := None |})
         = Thrown TypeError)
  /\ (forall opts : Options,
         stop {| options := opts; observer := None |}
         = {| options := opts; observer := None |})
  /\ (forall raw : RawOptions, constructor NonBrowser raw = Throw ReferenceError)
  /\ option_map
       (fun w => uncaught (run [(0%Z, AddElements (VElement itemA))] w))
       (started (Browser false) (config VUndefined))
     = Some [(0%Z, TypeError)].
Proof.
  split; [| split; [| split; [| split; [| split]]]].
  - intros raw; unfold constructor.
    now destruct (root (defaults raw)).
  - intros opts e; unfold addElements; simpl.
    destruct (Lodash.isArrayLike (elements opts));
      [destruct (push e (elements opts)) |]; reflexivity.
  - reflexivity.
  - reflexivity.
  - intros raw; unfold constructor.
    now destruct (root (defaults raw)).
  - vm_compute; reflexivity.
Qed.

(** C9, where the code departs from it: when the registry already is an
    array, [addElements] with an array copies the registry and drops the
    result of [concat], so the registry is the old one and the new
    elements are missing from it; with a single element the registry is
    the old one followed by that element. *)
Theorem addElements_array_leaves_registry :
  (forall (opts : Options) (ob : option (IntersectionObserver Callback))
          (old l : list Element),
      elements
        (options
           (fst (addElements (VArray l)
                   {| options := setElements (VArray old) opts;
                      observer := ob |})))
      = VArray old)
  /\ (forall (opts : Options) (ob : option (IntersectionObserver Callback))
             (old : list Element) (e : Element),
         elements
           (options
              (fst (addElements (VElement e)
                      {| options := setElements (VArray old) opts;
                         observer := ob |})))
         = VArray (old ++ [e]))
  /\ option_map
       (fun w => elements
                   (options (this (run [(0%Z, AddElements (VArray [itemA]))] w))))
       (started (Browser true) (config (VArray [itemA])))
     = Some (VArray [itemA])
  /\ option_map
       (fun w => elements
                   (options (this (run [(0%Z, AddElements (VElement itemA))] w))))
       (started (Browser true) (config (VArray [itemA])))
     = Some (VArray [itemA; itemA]).
Proof.
  split; [| split; [| split]].
  - intros opts ob old l; unfold addElements; simpl.
    rewrite forEachObserve_options; simpl.
    apply arrayOf_map_Some.
  - intros opts ob old e; unfold addElements; simpl.
    unfold observerObserve; simpl.
    now destruct ob.
  - vm_compute; reflexivity.
  - vm_compute; reflexivity.
Qed.

End Registration.

(** ** Stopping the tracker *)

Section Stopping.

Import Js Dom Observer Setup Scenario.


Lemma stop_watched (t : Observer) : watched (stop t) = [].
Proof.
  unfold watched, stop.
  destruct (observer t) as [io|] eqn:O; simpl; [reflexivity | now rewrite O].
Qed.

Lemma stop_installed (t : Observer) : installed (stop t) = installed t.
Proof.
  unfold installed, stop.
  destruct (observer t) as [io|] eqn:O; simpl; [reflexivity | now rewrite O].
Qed.


Lemma nothing_deliverable (C : Type) (io : IntersectionObserver C)
      (entries : list Entry) :
  targets io = [] -> deliverable io entries = false.
Proof.
  intros T; destruct entries as [|e rest]; simpl; [reflexivity |].
  unfold isObserved; now rewrite T.
Qed.

End Stopping.

(** ** The throttled callback *)

Section Throttling.

Import Js Dom Observer Setup Scenario.

(** A timer that re-arms itself is due when it next has to invoke. *)
Lemma timerExpired_rearmed (A : Type) (d d' : Lodash.Throttled A)
      (time due : Z) (r : option A) :
  Lodash.timerExpired time d = (d', r) ->
  Lodash.timerId d' = Some due ->
  r = None /\ Lodash.shouldInvoke due d' = true.
Proof.
  unfold Lodash.timerExpired, Lodash.trailingEdge.
  destruct (Lodash.shouldInvoke time d) eqn:S.
  - simpl; destruct (Lodash.lastArgs d); intros H; inversion H; subst;
      simpl; discriminate.
  - intros H; inversion H; subst; simpl.
    intros T; inversion T; subst; clear T H.
    split; [reflexivity |].
    unfold Lodash.shouldInvoke, Lodash.remainingWait in *; simpl.
    destruct (Lodash.lastCallTime d) as [c|]; [| discriminate].
    apply orb_true_iff.
    destruct (Z.min_spec (Lodash.wait d - (time - c))
                         (Lodash.wait d - (time - Lodash.lastInvokeTime d)))
      as [[_ M]|[_ M]]; rewrite M.
    + left; apply orb_true_iff; left; apply Z.leb_le; lia.
    + right; apply Z.leb_le; lia.
Qed.

(** A timer that goes off when it has to invoke clears itself. *)
Lemma timerExpired_clears (A : Type) (d : Lodash.Throttled A) (time : Z) :
  Lodash.shouldInvoke time d = true ->
  Lodash.timerId (fst (Lodash.timerExpired time d)) = None.
Proof.
  unfold Lodash.timerExpired, Lodash.trailingEdge; intros ->; simpl.
  now destruct (Lodash.lastArgs d).
Qed.

(** With nothing held back the timer calls nothing. *)
Lemma timerExpired_idle (A : Type) (d : Lodash.Throttled A) (time : Z) :
  Lodash.lastArgs d = None ->
  snd (Lodash.timerExpired time d) = None
  /\ Lodash.lastArgs (fst (Lodash.timerExpired time d)) = None.
Proof.
  unfold Lodash.timerExpired, Lodash.trailingEdge; intros L.
  destruct (Lodash.shouldInvoke time d); simpl; rewrite L; simpl; auto.
Qed.

Lemma pendingTimer_fireTimer (w : World) (io : IntersectionObserver Callback)
      (d : Lodash.Throttled (list Entry)) (time : Z) :
  observer (this w) = Some io ->
  callback io = Throttled d ->
  installed (this (fireTimer time w))
  = Some (Throttled (fst (Lodash.timerExpired time d))).
Proof.
  intros O C.
  unfold fireTimer; rewrite O, C.
  destruct (Lodash.timerExpired time d) as [d1 [args|]]; simpl.
  - unfold process, setCallback; rewrite O; simpl.
    now destruct (onObserve _ args).
  - unfold setCallback; now rewrite O.
Qed.

Lemma pendingTimer_installed (w : World) :
  pendingTimer w
  = match installed (this w) with
    | Some (Throttled d) => Lodash.timerId d
    | _ => None
    end.
Proof.
  unfold pendingTimer, installed.
  now destruct (observer (this w)) as [io|].
Qed.

(** Once the clock has reached [time], no timer is due at or before it. *)
Lemma advance_settles (w : World) (time due : Z) :
  pendingTimer (advance time w) = Some due -> (time < due)%Z.
Proof.
  unfold advance.
  assert (forall w0 due0,
             pendingTimer (fireDue time w0) = Some due0 ->
             (due0 <= time)%Z ->
             exists d, installed (this (fireDue time w0)) = Some (Throttled d)
                       /\ Lodash.timerId d = Some due0
                       /\ Lodash.shouldInvoke due0 d = true) as Step.
  { intros w0 due0 P L.
    unfold fireDue in *.
    destruct (pendingTimer w0) as [due1|] eqn:P0.
    - destruct (due1 <=? time)%Z eqn:L1.
      + rewrite pendingTimer_installed in P0.
        unfold installed in P0.
        destruct (observer (this w0)) as [io|] eqn:O; [| discriminate].
        simpl in P0.
        destruct (callback io) as [|d] eqn:C; [discriminate |].
        pose proof (@pendingTimer_fireTimer w0 io d due1 O C) as I.
        rewrite pendingTimer_installed, I in P.
        exists (fst (Lodash.timerExpired due1 d)).
        split; [exact I |].
        split; [exact P |].
        destruct (Lodash.timerExpired due1 d) as [d' r] eqn:T.
        now destruct (@timerExpired_rearmed _ _ _ _ _ _ T P).
      + rewrite P0 in P; inversion P; subst.
        apply Z.leb_gt in L1; lia.
    - rewrite P0 in P; discriminate. }
  intros P.
  destruct (Z.lt_ge_cases time due) as [L|L]; [exact L | exfalso].
  set (w1 := fireDue time w) in *.
  unfold fireDue in P.
  destruct (pendingTimer w1) as [due1|] eqn:P1;
    [| rewrite P1 in P; discriminate].
  destruct (due1 <=? time)%Z eqn:L1.
  - apply Z.leb_le in L1.
    destruct (Step w due1 P1 L1) as [d [I [T S]]].
    fold w1 in I.
    unfold installed in I.
    destruct (observer (this w1)) as [io|] eqn:O; [| discriminate].
    simpl in I; inversion I as [C].
    pose proof (@pendingTimer_fireTimer w1 io d due1 O C) as I'.
    rewrite pendingTimer_installed, I' in P.
    now rewrite (@timerExpired_clears _ _ _ S) in P.
  - rewrite P1 in P; inversion P; subst.
    apply Z.leb_gt in L1; lia.
Qed.

(** After [drain] no timer is pending. *)
Lemma drain_settles (w : World) : pendingTimer (drain w) = None.
Proof.
  unfold drain.
  destruct (pendingTimer w) as [due|] eqn:P; [| exact P].
  destruct (pendingTimer (fireTimer due w)) as [due1|] eqn:P1; [| exact P1].
  rewrite pendingTimer_installed in P.
  unfold installed in P.
  destruct (observer (this w)) as [io|] eqn:O; [| discriminate].
  simpl in P.
  destruct (callback io) as [|d] eqn:C; [discriminate |].
  pose proof (@pendingTimer_fireTimer w io d due O C) as I.
  rewrite pendingTimer_installed, I in P1.
  destruct (Lodash.timerExpired due d) as [d' r] eqn:T.
  destruct (@timerExpired_rearmed _ _ _ _ _ _ T P1) as [_ S].
  simpl in I.
  unfold installed in I.
  destruct (observer (this (fireTimer due w))) as [io'|] eqn:O'; [| discriminate].
  simpl in I; inversion I as [C'].
  pose proof (@pendingTimer_fireTimer (fireTimer due w) io' d' due1 O' C') as I'.
  rewrite pendingTimer_installed, I'.
  now apply timerExpired_clears.
Qed.

End Throttling.

(** ** Stopping and the pending flush *)

Section Flush.

Import Js Dom Observer Setup Scenario.

Lemma fireTimer_quiet (time : Z) (w : World) :
  quiet w -> quiet (fireTimer time w) /\ calls (fireTimer time w) = calls w.
Proof.
  destruct w as [[o [[[|d] r th tg]|]] cs un];
    unfold quiet, watched, pendingBatch, installed, fireTimer; simpl; auto.
  intros [W L].
  destruct (timerExpired_idle d time L) as [S F].
  destruct (Lodash.timerExpired time d) as [d1 r1]; simpl in *; subst r1.
  unfold setCallback; simpl; auto.
Qed.

Lemma fireDue_quiet (time : Z) (w : World) :
  quiet w -> quiet (fireDue time w) /\ calls (fireDue time w) = calls w.
Proof.
  intros Q; unfold fireDue.
  destruct (pendingTimer w) as [due|]; [| auto].
  destruct (due <=? time)%Z; [now apply fireTimer_quiet | auto].
Qed.

Lemma advance_quiet (time : Z) (w : World) :
  quiet w -> quiet (advance time w) /\ calls (advance time w) = calls w.
Proof.
  intros Q; unfold advance.
  destruct (fireDue_quiet time Q) as [Q1 C1].
  destruct (fireDue_quiet time Q1) as [Q2 C2].
  split; [exact Q2 | congruence].
Qed.

Lemma handle_quiet (time : Z) (ev : Event) (w : World) :
  isRegistration ev = false ->
  quiet w -> quiet (handle time ev w) /\ calls (handle time ev w) = calls w.
Proof.
  destruct ev as [els| |entries]; simpl; [discriminate | |]; intros _ Q.
  - split; [| reflexivity].
    destruct Q as [W L]; unfold quiet, pendingBatch in *; simpl.
    now rewrite stop_watched, stop_installed.
  - destruct (observer (this w)) as [io|] eqn:O; [| auto].
    rewrite nothing_deliverable; [auto |].
    destruct Q as [W _]; unfold watched in W; now rewrite O in W.
Qed.

Lemma run_quiet (events : list (Z * Event)) (w : World) :
  forallb (fun te => negb (isRegistration (snd te))) events = true ->
  quiet w -> quiet (run events w) /\ calls (run events w) = calls w.
Proof.
  revert w; induction events as [|[time ev] rest IH]; intros w F Q; simpl.
  - auto.
  - simpl in F; apply andb_true_iff in F as [Fev Frest].
    apply negb_true_iff in Fev.
    destruct (advance_quiet time Q) as [Q1 C1].
    destruct (handle_quiet time ev Fev Q1) as [Q2 C2].
    destruct (IH _ Frest Q2) as [Q3 C3].
    split; [exact Q3 | congruence].
Qed.

Lemma drain_quiet (w : World) :
  quiet w -> quiet (drain w) /\ calls (drain w) = calls w.
Proof.
  intros Q; unfold drain.
  destruct (pendingTimer w) as [due|]; [| auto].
  destruct (fireTimer_quiet due Q) as [Q1 C1].
  destruct (pendingTimer (fireTimer due w)) as [due1|]; [| auto].
  destruct (fireTimer_quiet due1 Q1) as [Q2 C2].
  split; [exact Q2 | congruence].
Qed.

(** C5, as the code has it: [stop] only disconnects the intersection
    observer.  Nothing is watched afterwards, and when no batch is held
    back by the throttle (as is always the case without throttling) the
    caller's callback is not invoked again, whatever the browser and the
    host do short of registering elements.  A flush that is pending is
    left as it is: the timer and the batch it holds are those from before
    [stop], and the timer makes the same calls as it would have made
    without [stop].  With a wait of 150ms, batches at 0 and 50ms and
    [stop] at 100ms, the flush goes off at 150ms with the batch of 50ms. *)
Theorem stop_keeps_pending_flush :
  (forall (w : World) (time : Z),
      watched (this (handle time Stop w)) = []
      /\ pendingTimer (handle time Stop w) = pendingTimer w
      /\ pendingBatch (handle time Stop w) = pendingBatch w
      /\ forall due,
           calls (fireTimer due (handle time Stop w)) = calls (fireTimer due w))
  /\ (forall (w : World) (time : Z) (later : list (Z * Event)),
         pendingBatch w = None ->
         forallb (fun te => negb (isRegistration (snd te))) later = true ->
         calls (drain (run later (handle time Stop w))) = calls w)
  /\ (forall w : World, installed (this w) = Some Bound -> pendingBatch w = None)
  /\ option_map (fun w => pendingTimer (run stopWhilePending w)) throttled150
     = Some (Some 150%Z)
  /\ option_map (fun w => trace (drain (run stopWhilePending w))) throttled150
     = Some [(0%Z, [0.1%Q]); (150%Z, [0.2%Q])].
Proof.
  split; [| split; [| split; [| split]]].
  - intros w time; simpl.
    split; [apply stop_watched |].
    split.
    { rewrite !pendingTimer_installed; simpl; now rewrite stop_installed. }
    split.
    { unfold pendingBatch; simpl; now rewrite stop_installed. }
    intros due.
    destruct w as [[o [[[|d] r th tg]|]] cs un];
      unfold fireTimer, stop; simpl; try reflexivity.
    destruct (Lodash.timerExpired due d) as [d1 [args|]];
      unfold process, setCallback; simpl; [| reflexivity].
    now destruct (onObserve o args).
  - intros w time later L F.
    assert (quiet (handle time Stop w)) as Q.
    { split; simpl; [apply stop_watched |].
      unfold pendingBatch in *; simpl; now rewrite stop_installed. }
    destruct (run_quiet later F Q) as [Q1 C1].
    destruct (drain_quiet Q1) as [_ C2].
    rewrite C2, C1; reflexivity.
  - intros w B; unfold pendingBatch; now rewrite B.
  - vm_compute; reflexivity.
  - vm_compute; reflexivity.
Qed.

(** C5 at an unthrottled tracker: after [stop], further batches and a
    second [stop] lead to no call. *)
Lemma stop_keeps_pending_flush_witness :
  exists w,
    started (Browser true) (withThrottle ThrottleFalse (config (VArray [itemA])))
    = Some w
    /\ calls (drain (run [(110, Deliver (oneSample 0.9)); (120, Stop)]%Z
                         (handle 100 Stop w)))
       = calls w.
Proof.
  eexists; split; [vm_compute; reflexivity |].
  apply (proj1 (proj2 stop_keeps_pending_flush)); reflexivity.
Defined.

(** C5 as stated fails: a flush scheduled for 150ms fires at 150ms
    although [stop] was called at 100ms. *)
Lemma pending_flush_fires_after_stop :
  option_map (fun w => trace (drain (run stopWhilePending w))) throttled150
  = Some [(0%Z, [0.1%Q]); (150%Z, [0.2%Q])]
  /\ ~ (forall w,
           throttled150 = Some w ->
           Forall (fun c => (fst c <= 100)%Z)
                  (calls (drain (run stopWhilePending w)))).
Proof.
  split.
  - vm_compute; reflexivity.
  - intros H.
    specialize (H _ eq_refl).
    vm_compute in H.
    inversion H as [|? ? _ H1]; subst.
    inversion H1 as [|? ? H2 _]; subst.
    apply H2; reflexivity.
Qed.

End Flush.

(** ** Coalescing of batches *)

Section Coalescing.

Import Js Dom Observer Setup Scenario.

(** C6, as the code has it: [_.throttle] invokes on the leading edge as
    well as on the trailing one.  With a wait of 150ms, batches at 0, 10,
    20, 30 and 140ms lead to exactly two calls: one at 0ms with the batch
    of 0ms, and one at 150ms with the batch of 140ms, the most recent one.
    In general, a batch that arrives less than the wait after both the
    previous batch and the previous invocation is not processed on
    arrival: it replaces the batch held back, and a timer is pending; a
    batch processed on arrival is passed as it is; and the flush of the
    timer passes the batch held back and leaves none. *)
Theorem throttle_leading_and_trailing :
  option_map (fun w => trace (drain (run fiveBatches w))) throttled150
  = Some [(0%Z, [0.1%Q]); (150%Z, [0.5%Q])]
  /\ (forall (A : Type) (d : Lodash.Throttled A) (time called : Z) (args : A),
         Lodash.lastCallTime d = Some called ->
         (0 <= time - called < Lodash.wait d)%Z ->
         (time - Lodash.lastInvokeTime d < Lodash.wait d)%Z ->
         snd (Lodash.debounced time args d) = None
         /\ Lodash.lastArgs (fst (Lodash.debounced time args d)) = Some args
         /\ Lodash.timerId (fst (Lodash.debounced time args d)) <> None)
  /\ (forall (A : Type) (d : Lodash.Throttled A) (time : Z) (args a : A),
         snd (Lodash.debounced time args d) = Some a -> a = args)
  /\ (forall (A : Type) (d : Lodash.Throttled A) (time : Z) (a : A),
         snd (Lodash.timerExpired time d) = Some a ->
         Lodash.lastArgs d = Some a
         /\ Lodash.lastArgs (fst (Lodash.timerExpired time d)) = None
         /\ Lodash.timerId (fst (Lodash.timerExpired time d)) = None).
Proof.
  split; [vm_compute; reflexivity |].
  split; [| split].
  - intros A d time called args L [T0 T1] T2.
    unfold Lodash.debounced, Lodash.shouldInvoke; rewrite L.
    assert ((Lodash.wait d <=? time - called)%Z = false) as E1
        by (apply Z.leb_gt; lia).
    assert ((time - called <? 0)%Z = false) as E2
        by (apply Z.ltb_ge; lia).
    assert ((Lodash.wait d <=? time - Lodash.lastInvokeTime d)%Z = false) as E3
        by (apply Z.leb_gt; lia).
    rewrite E1, E2, E3; simpl.
    destruct (Lodash.timerId d) eqn:T; simpl.
    + repeat split; discriminate.
    + repeat split; discriminate.
  - intros A d time args a.
    unfold Lodash.debounced, Lodash.leadingEdge, Lodash.invokeFunc.
    destruct (Lodash.shouldInvoke time d); simpl;
      destruct (Lodash.timerId d); simpl; congruence.
  - intros A d time a.
    unfold Lodash.timerExpired, Lodash.trailingEdge, Lodash.invokeFunc.
    destruct (Lodash.shouldInvoke time d); simpl; [| discriminate].
    destruct (Lodash.lastArgs d) as [b|]; simpl; [| discriminate].
    intros H; inversion H; auto.
Qed.

(** C6 at the state of the throttle 10ms after a first batch. *)
Lemma throttle_leading_and_trailing_witness :
  let d := fst (Lodash.debounced 0 (oneSample 0.1)
                                 (Lodash.throttle (list Entry) 150)) in
  snd (Lodash.debounced 10 (oneSample 0.2) d) = None
  /\ Lodash.lastArgs (fst (Lodash.debounced 10 (oneSample 0.2) d))
     = Some (oneSample 0.2)
  /\ Lodash.timerId (fst (Lodash.debounced 10 (oneSample 0.2) d)) <> None.
Proof.
  apply (proj1 (proj2 throttle_leading_and_trailing)) with (called := 0%Z).
  - reflexivity.
  - simpl; lia.
  - simpl; lia.
Defined.

(** C6 as stated fails: the five batches lead to two calls, not one, the
    first of them at 0ms with the batch of 0ms; and batches at 0, 100 and
    250ms lead to calls at 150 and 250ms, which are 100ms apart. *)
Lemma five_batches_two_calls :
  option_map (fun w => List.length (calls (drain (run fiveBatches w))))
             throttled150
  = Some 2%nat
  /\ ~ (forall w,
           throttled150 = Some w ->
           exists c,
             calls (drain (run fiveBatches w)) = [c] /\ (150 <= fst c)%Z)
  /\ option_map
       (fun w => trace (drain (run [(0, Deliver (oneSample 0.1));
                                    (100, Deliver (oneSample 0.2));
                                    (250, Deliver (oneSample 0.3))]%Z w)))
       throttled150
     = Some [(0%Z, [0.1%Q]); (150%Z, [0.2%Q]); (250%Z, [0.3%Q])].
Proof.
  split; [vm_compute; reflexivity |].
  split; [| vm_compute; reflexivity].
  intros H.
  destruct (H _ eq_refl) as [c [E _]].
  vm_compute in E; discriminate.
Qed.

End Coalescing.

(** ** More on registration *)

Section Registered.

Import Js Dom Observer Setup Scenario Facts.

Lemma sameNode_existsb (e x : Element) (l : list Element) :
  sameNode e x = true -> existsb (sameNode e) l = existsb (sameNode x) l.
Proof.
  unfold sameNode; intros H; apply Nat.eqb_eq in H.
  induction l as [|y rest IH]; simpl; [reflexivity |].
  now rewrite IH, H.
Qed.

Lemma isObserved_observe_eq (C : Type) (x e : Element)
      (io : IntersectionObserver C) :
  isObserved (observe x io) e = isObserved io e || sameNode e x.
Proof.
  unfold observe.
  destruct (isObserved io x) eqn:Ex.
  - destruct (sameNode e x) eqn:S; [| now rewrite orb_false_r].
    unfold isObserved in *.
    now rewrite (@sameNode_existsb e x (targets io) S), Ex.
  - unfold isObserved; simpl.
    now rewrite existsb_app; simpl; rewrite orb_false_r.
Qed.

Lemma forEachObserve_watches (l : list Element) (t : Observer)
      (io : IntersectionObserver Callback) :
  observer t = Some io ->
  exists io',
    forEachObserve (List.map Some l) t
    = ({| options := options t; observer := Some io' |}, Returned)
    /\ callback io' = callback io
    /\ forall e, isObserved io' e = isObserved io e || among l e.
Proof.
  revert t io; induction l as [|x rest IH]; intros t io Hio; simpl.
  - exists io; destruct t as [o ob]; simpl in *; subst ob.
    repeat split; intros e; now rewrite orb_false_r.
  - unfold observerObserve; rewrite Hio.
    destruct (IH {| options := options t; observer := Some (observe x io) |}
                 (observe x io) eq_refl) as [io' [E [C W]]].
    exists io'; simpl in E.
    split; [exact E |].
    split; [now rewrite C, callback_observe |].
    intros e; rewrite W, isObserved_observe_eq.
    unfold among; simpl; now rewrite orb_assoc.
Qed.

(** X1: in a browser with [IntersectionObserver] the constructor
    registers [options.elements] when that is an element, an array of
    elements or a collection that has [forEach] and holds elements only:
    it returns, an element is watched afterwards exactly when it is one of
    them, and the registry is an array of them (a single element is
    wrapped, an array or collection is copied).  With a falsy
    [options.elements] it returns as well, with nothing watched.  With any
    other value (a string, a form or select element, a collection without
    [forEach], an array with an item that is not an element) the
    constructor ends in a [TypeError]. *)
Theorem constructor_registers_elements :
  forall raw : RawOptions,
    if constructs (rawElements raw)
    then
      exists t io,
        constructor (Browser true) raw = Normal t
        /\ observer t = Some io
        /\ (forall e, isObserved io e = among (members (rawElements raw)) e)
        /\ elements (options t)
           = (if truthy (rawElements raw)
              then VArray (members (rawElements raw))
              else rawElements raw)
    else constructor (Browser true) raw = Throw TypeError.
Proof.
  intros raw.
  destruct (constructs (rawElements raw)) eqn:Hc;
    [| now apply constructor_rejected].
  unfold constructor.
  set (io0 := {| callback := _; Dom.root := _; threshold := _; targets := _ |}).
  assert (forall e, isObserved io0 e = false) as W0 by reflexivity.
  assert (forall (l : list Element) (registry : Value),
             exists t io,
               match forEachObserve (List.map Some l)
                       {| options := setElements registry (defaults raw);
                          observer := Some io0 |}
               with
               | (this1, Returned) => Normal this1
               | (_, Thrown e) => Throw e
               end = Normal t
               /\ observer t = Some io
               /\ (forall e, isObserved io e = among l e)
               /\ elements (options t) = registry) as Hall.
  { intros l registry.
    destruct (@forEachObserve_watches l
                {| options := setElements registry (defaults raw);
                   observer := Some io0 |} io0 eq_refl) as [io' [E [_ W]]].
    rewrite E.
    eexists; exists io'.
    split; [reflexivity |]; simpl.
    split; [reflexivity |].
    split; [intros e; now rewrite W, W0 | reflexivity]. }
  assert (exists t io,
             (if truthy (elements (defaults raw))
              then match addElements (elements (defaults raw))
                           {| options := defaults raw; observer := Some io0 |}
                   with
                   | (this1, Returned) => Normal this1
                   | (_, Thrown e) => Throw e
                   end
              else Normal {| options := defaults raw; observer := Some io0 |})
             = Normal t
             /\ observer t = Some io
             /\ (forall e, isObserved io e = among (members (rawElements raw)) e)
             /\ elements (options t)
                = (if truthy (rawElements raw)
                   then VArray (members (rawElements raw))
                   else rawElements raw)) as H.
  { change (elements (defaults raw)) with (rawElements raw).
    unfold constructs in Hc.
    destruct (rawElements raw) as [|e|l|c|s] eqn:R.
    - eexists; exists io0.
      split; [reflexivity |].
      split; [reflexivity |].
      split; [intros e; apply W0 | simpl; exact R].
    - unfold addElements; simpl; rewrite R; simpl.
      eexists; exists (observe e io0).
      split; [reflexivity |]; simpl.
      split; [reflexivity |].
      split; [| reflexivity].
      intros x; rewrite isObserved_observe_eq, W0.
      unfold among; simpl; now rewrite orb_false_r.
    - unfold addElements; simpl; rewrite R; simpl.
      rewrite arrayOf_map_Some.
      apply Hall.
    - simpl in Hc; apply andb_true_iff in Hc as [F A].
      pose proof (contents_elementsAmong _ A) as Hl.
      unfold addElements; simpl; rewrite R; simpl.
      rewrite F.
      set (l := elementsAmong (contents c)) in *.
      rewrite Hl, arrayOf_map_Some.
      apply Hall.
    - destruct s as [|ch s']; [| discriminate].
      eexists; exists io0.
      split; [reflexivity |].
      split; [reflexivity |].
      split; [intros e; apply W0 | simpl; exact R]. }
  destruct (root (defaults raw)); exact H.
Qed.

(** X3: the defaults are stable: constructing again on the options object
    that a construction left behind gives the same options. *)
Theorem defaults_idempotent :
  forall raw : RawOptions, defaults (asRaw (defaults raw)) = defaults raw.
Proof.
  intros raw.
  unfold defaults, asRaw; simpl.
  f_equal.
  - unfold defaultThrottle.
    destruct (rawThrottle raw) as [| |ms]; simpl; try reflexivity.
    destruct (ms =? 0)%Z eqn:Z0; simpl; [reflexivity | now rewrite Z0].
  - unfold defaultAttribute.
    destruct (rawAttribute raw) as [[|c s]|]; reflexivity.
  - unfold defaultVisibleThreshold, numberTruthy.
    destruct (rawVisibleThreshold raw) as [q|]; [| reflexivity].
    destruct (Qeq_bool q 0) eqn:Q0; simpl; [reflexivity | now rewrite Q0].
  - unfold defaultForceItem.
    destruct (rawForceItem raw) as [[|]|]; reflexivity.
Qed.

End Registered.

(** ** Schedules of events *)

Section Schedules.

Import Js Dom Observer Setup Scenario Facts.






Lemma process_view (w : World) (time : Z) (entries : list Entry) :
  entries <> [] ->
  exists n,
    onObserve (options (this w)) entries = Normal n
    /\ process time entries w
       = {| this := this w; calls := calls w ++ [(time, n)];
            uncaught := uncaught w |}.
Proof.
  intros Hne.
  destruct (onObserve_returns (options (this w)) Hne) as [n Hn].
  exists n; split; [exact Hn |].
  unfold process; now rewrite Hn.
Qed.





Lemma setCallback_options (c : Callback) (w : World) :
  options (this (setCallback c w)) = options (this w).
Proof. unfold setCallback; now destruct (observer (this w)). Qed.
















End Schedules.

(** ** Batches and the callback *)

Section Reporting.

Import Js Dom Observer Setup Scenario Facts.

Lemma addElements_without_observer (els : Value) (t : Observer) :
  observer t = None ->
  observer (fst (addElements els t)) = None
  /\ (snd (addElements els t) = Returned
      \/ snd (addElements els t) = Thrown TypeError).
Proof.
  intros O.
  assert (forall (its : list (option Element)) (registry : Value),
             observer
               (fst (forEachObserve its
                       {| options := setElements registry (options t);
                          observer := observer t |})) = None
             /\ (snd (forEachObserve its
                        {| options := setElements registry (options t);
                           observer := observer t |}) = Returned
                 \/ snd (forEachObserve its
                           {| options := setElements registry (options t);
                              observer := observer t |}) = Thrown TypeError))
    as Hall.
  { intros [|[x|] rest] registry; simpl; auto.
    unfold observerObserve; simpl; rewrite O; simpl; auto. }
  unfold addElements.
  destruct els as [|e|l|c|s]; cbn [Lodash.isArrayLike Lodash.isElement forEach].
  - simpl; auto.
  - destruct (if Lodash.isArrayLike (elements (options t))
              then push e (elements (options t))
              else Some (VArray [e])) as [registry|]; simpl; [| auto].
    unfold observerObserve; simpl; rewrite O; simpl; auto.
  - apply Hall.
  - destruct (hasForEach c); [apply Hall | simpl; auto].
  - simpl; auto.
Qed.

Lemma advance_inert (time : Z) (w : World) : inert w -> advance time w = w.
Proof.
  intros [O _].
  assert (fireDue time w = w) as F
      by (unfold fireDue, pendingTimer; now rewrite O).
  unfold advance; now rewrite F, F.
Qed.

Lemma handle_inert (time : Z) (ev : Event) (w : World) :
  inert w ->
  Forall (fun te => snd te = TypeError) (uncaught w) ->
  inert (handle time ev w)
  /\ Forall (fun te => snd te = TypeError) (uncaught (handle time ev w)).
Proof.
  intros [O K] U.
  destruct ev as [els| |entries]; simpl.
  - destruct (@addElements_without_observer els (this w) O) as [O' [R|R]];
      unfold withThis, inert; simpl; rewrite R; repeat split; auto.
    apply Forall_app; split; [exact U | now constructor].
  - unfold withThis, inert, stop; simpl; rewrite O; auto.
  - rewrite O; unfold inert; auto.
Qed.

Lemma run_inert (events : list (Z * Event)) (w : World) :
  inert w ->
  Forall (fun te => snd te = TypeError) (uncaught w) ->
  inert (run events w)
  /\ Forall (fun te => snd te = TypeError) (uncaught (run events w)).
Proof.
  revert w; induction events as [|[time ev] rest IH]; intros w I U; simpl.
  - auto.
  - rewrite (advance_inert time I).
    destruct (handle_inert time ev I U) as [I1 U1].
    now apply IH.
Qed.

(** X5: in a browser without [IntersectionObserver] the caller's callback
    is never called, whatever the host and the browser do; nothing is
    watched, and the only exceptions that escape are the [TypeError]s of
    [addElements]. *)
Theorem tracker_without_observer_never_notifies :
  forall raw : RawOptions,
    exists w,
      started (Browser false) raw = Some w
      /\ forall events : list (Z * Event),
           calls (drain (run events w)) = []
           /\ watched (this (drain (run events w))) = []
           /\ Forall (fun te => snd te = TypeError)
                     (uncaught (drain (run events w))).
Proof.
  intros raw.
  exists {| this := {| options := defaults raw; observer := None |};
            calls := []; uncaught := [] |}.
  split.
  - unfold started, boot, constructor.
    now destruct (root (defaults raw)).
  - intros events.
    match goal with
    | |- context [run events ?w0] =>
        destruct (@run_inert events w0) as [[O K] U];
          [split; reflexivity | constructor |]
    end.
    unfold drain, pendingTimer, watched; rewrite O.
    split; [exact K |].
    split; [now rewrite O | exact U].
Qed.





(** A callback as the constructor installs it, bound or freshly
    throttled, processes a delivered batch when it arrives. *)
Lemma handle_deliver_fresh (w : World) (io : IntersectionObserver Callback)
      (time : Z) (batch : list Entry) :
  observer (this w) = Some io ->
  callback io = Bound
  \/ (exists ms, callback io = Throttled (Lodash.throttle (list Entry) ms)) ->
  deliverable io batch = true ->
  exists n,
    onObserve (options (this w)) batch = Normal n
    /\ calls (handle time (Deliver batch) w) = calls w ++ [(time, n)].
Proof.
  intros O [Cb|[ms Ct]] D.
  - destruct (@handle_deliver_bound w io time batch O Cb D) as [n [Hn Hh]].
    exists n; split; [exact Hn | now rewrite Hh].
  - pose proof (@deliverable_nonempty _ io batch D) as Hne.
    simpl; rewrite O, D.
    unfold invokeCallback; rewrite O, Ct; simpl.
    match goal with
    | |- context [process time batch ?w1] =>
        destruct (process_view w1 time Hne) as [n [Hn K]]
    end.
    rewrite setCallback_options in Hn.
    exists n; split; [exact Hn |].
    rewrite K; simpl.
    unfold setCallback; now rewrite O.
Qed.

(** The callback of a tracker that the constructor returned. *)
Lemma constructor_fresh (raw : RawOptions) (t : Observer) :
  constructor (Browser true) raw = Normal t ->
  exists io,
    observer t = Some io
    /\ (callback io = Bound
        \/ exists ms, callback io = Throttled (Lodash.throttle (list Entry) ms)).
Proof.
  intros E.
  destruct (constructor_returned raw E) as [io [O [_ C]]].
  exists io; split; [exact O |].
  rewrite C.
  destruct (throttle (defaults raw)) as [| |ms]; auto.
  destruct (ms =? 0)%Z; eauto.
Qed.

(** X7: the first batch that the browser delivers after the construction
    is processed when it arrives, whatever the throttle: the caller's
    callback is called once, at the time of the batch.  The constructor
    returns unless [options.elements] is a value that it cannot
    register. *)
Theorem first_batch_is_processed_on_arrival :
  forall (raw : RawOptions) (time : Z) (batch : list Entry),
    (constructs (rawElements raw) = true ->
     exists w, started (Browser true) raw = Some w)
    /\ (forall w,
           started (Browser true) raw = Some w ->
           exists io,
             observer (this w) = Some io
             /\ (deliverable io batch = true ->
                 exists n,
                   onObserve (options (this w)) batch = Normal n
                   /\ calls (handle time (Deliver batch) w) = [(time, n)])).
Proof.
  intros raw time batch; split.
  - intros Hc.
    destruct (constructor_capable raw Hc) as [t [_ [E _]]].
    unfold started, boot; rewrite E; eauto.
  - intros w; unfold started, boot.
    destruct (constructor (Browser true) raw) as [t|err] eqn:E;
      [| discriminate].
    intros H; inversion H; subst w; clear H.
    destruct (constructor_fresh raw E) as [io [O F]].
    exists io; split; [exact O |].
    intros D.
    exact (@handle_deliver_fresh {| this := t; calls := []; uncaught := [] |}
                                 io time batch O F D).
Qed.

(** X7 at a tracker on [itemA] with the default throttle. *)
Lemma first_batch_is_processed_on_arrival_witness :
  exists w io,
    started (Browser true) (config (VArray [itemA])) = Some w
    /\ observer (this w) = Some io
    /\ exists n,
         onObserve (options (this w)) (oneSample 0.9) = Normal n
         /\ calls (handle 0 (Deliver (oneSample 0.9)) w) = [(0%Z, n)].
Proof.
  destruct (first_batch_is_processed_on_arrival
              (config (VArray [itemA])) 0 (oneSample 0.9)) as [Hs Hw].
  destruct (Hs eq_refl) as [w E].
  destruct (Hw w E) as [io [O Hd]].
  exists w, io.
  split; [exact E |].
  split; [exact O |].
  apply Hd.
  revert O; vm_compute in E; inversion E; subst w; clear E.
  intros O; vm_compute in O; inversion O; subst io; clear O.
  vm_compute; reflexivity.
Defined.

End Reporting.

(** ** Registration after [stop] *)

Section Resubscription.

Import Js Dom Observer Setup Scenario.




End Resubscription.

(** ** Ties in the ranking *)

Section Ties.

Import Js Dom Observer Ranking Scenario Facts.

Lemma in_decorateFrom_split (A : Type) (its : list (A -> Q)) (l : list A)
      (i : nat) (d : Lodash.Decorated A) :
  In d (Lodash.decorateFrom its i l) ->
  exists before after,
    l = before ++ Lodash.value d :: after
    /\ Lodash.index d = (i + List.length before)%nat.
Proof.
  revert i; induction l as [|x rest IH]; intros i; simpl; [intros [] |].
  intros [<-|H].
  - exists [], rest; simpl; split; [reflexivity | lia].
  - destruct (IH _ H) as [before [after [E I]]].
    exists (x :: before), after; simpl.
    split; [now rewrite E | lia].
Qed.

Lemma decorateFrom_app (A : Type) (its : list (A -> Q)) (l1 l2 : list A) (i : nat) :
  Lodash.decorateFrom its i (l1 ++ l2)
  = Lodash.decorateFrom its i l1
    ++ Lodash.decorateFrom its (i + List.length l1) l2.
Proof.
  revert i; induction l1 as [|x rest IH]; intros i; simpl.
  - now rewrite Nat.add_0_r.
  - rewrite IH; do 3 f_equal; lia.
Qed.

Lemma decorateFrom_index_bound (A : Type) (its : list (A -> Q)) (l : list A)
      (i : nat) (d : Lodash.Decorated A) :
  In d (Lodash.decorateFrom its i l) ->
  (i <= Lodash.index d < i + List.length l)%nat.
Proof.
  revert i; induction l as [|x rest IH]; intros i; simpl; [intros [] |].
  intros [<-|H]; simpl; [lia |].
  apply IH in H; lia.
Qed.

(** X8: ties are decided by the order of the batch.  The sample that
    [onObserve] reports as active beats outright every sample that the
    batch lists before it (a larger ratio or, at the same ratio, a higher
    top), and is not beaten by any sample listed after it: among samples
    that tie on ratio and top, the first of the batch is reported. *)
Theorem onObserve_first_of_tied_wins :
  forall (opts : Options) (batch : list Entry) (n : Notification) (s : Entry),
    Forall fresh batch ->
    onObserve opts batch = Normal n ->
    sample n = Some s ->
    exists before e after,
      batch = before ++ e :: after
      /\ s = markInView e
      /\ (forall x, In x before -> strictlyOutranks e x)
      /\ (forall x, In x after -> outranks e x).
Proof.
  intros opts batch n s Hfresh Hn Hs.
  assert (batch <> []) as Hne.
  { intros ->; vm_compute in Hn; discriminate. }
  destruct (onObserve_unfold opts Hne) as [first [others [E [P [S Hn']]]]].
  destruct (fresh_head P Hfresh) as [Ffirst _].
  rewrite Hn' in Hn; inversion Hn as [Hn0]; clear Hn Hn'.
  cbv zeta in Hn0; subst n.
  assert (s = markInView first) as ->.
  { destruct (Qle_bool (visibleThreshold opts) (intersectionRatio first)
              || forceItem opts); simpl in Hs.
    - now inversion Hs.
    - rewrite Ffirst in Hs; discriminate. }
  clear Hs.
  unfold Lodash.orderBy in E.
  set (decorated := Lodash.decorateFrom keys 0 batch) in *.
  destruct (Lodash.sortDecorated orders decorated) as [|d0 ds] eqn:Es;
    [discriminate |].
  simpl in E; inversion E as [[Ev Eo]]; clear E.
  assert (Permutation (d0 :: ds) decorated) as Pd
      by (rewrite <- Es; apply sortDecorated_perm).
  assert (Forall keyed decorated) as Kd by apply keyed_decorateFrom.
  assert (Forall keyed (d0 :: ds)) as Ks
      by (apply Permutation_Forall with decorated;
          [now apply Permutation_sym | exact Kd]).
  assert (StronglySorted (fun x y => Lodash.comesFirst orders x y = true)
                         (d0 :: ds)) as Ss.
  { rewrite <- Es.
    apply sortDecorated_sorted with (ok := keyed).
    - intros x y; apply comesFirst_total.
    - intros x y z; apply comesFirst_trans.
    - exact Kd. }
  assert (In d0 decorated) as I0
      by (apply Permutation_in with (d0 :: ds); [exact Pd | now left]).
  destruct (in_decorateFrom_split _ _ _ _ I0) as [before [after [Eb Ib]]].
  rewrite Ev in Eb.
  exists before, first, after.
  split; [exact Eb |].
  split; [now rewrite ?Ev |].
  split.
  - intros x Hx.
    assert (exists d, In d decorated /\ Lodash.value d = x
                      /\ (Lodash.index d < Lodash.index d0)%nat)
      as [d [Id [Vd Xd]]].
    { unfold decorated; rewrite Eb, decorateFrom_app.
      assert (In x (List.map (@Lodash.value Entry)
                             (Lodash.decorateFrom keys 0 before))) as Hm
          by (now rewrite value_decorateFrom).
      apply in_map_iff in Hm as [d [Vd Id]].
      exists d.
      split; [apply in_or_app; now left |].
      split; [exact Vd |].
      apply decorateFrom_index_bound in Id; lia. }
    assert (In d (d0 :: ds)) as Is
        by (apply Permutation_in with decorated;
            [now apply Permutation_sym | exact Id]).
    destruct Is as [->|Is]; [lia |].
    apply StronglySorted_inv in Ss as [_ F].
    rewrite Forall_forall in F, Ks.
    pose proof (F d Is) as Cf.
    apply comesFirst_keyed in Cf;
      [| apply Ks; now left | apply Ks; now right].
    rewrite Vd, Ev in Cf.
    unfold strictlyOutranks.
    destruct Cf as [Cf|[Cr [Cf|[_ Cf]]]].
    + now left.
    + right; split; [now symmetry | exact Cf].
    + lia.
  - intros x Hx.
    apply (sorted_head_mostVisible P S).
    rewrite Eb; apply in_or_app; right; now right.
Qed.

(** X8 at three samples of which the last two tie. *)
Lemma onObserve_first_of_tied_wins_witness :
  exists n s,
    onObserve (gated false)
              [browserEntry itemC 0.3 5; browserEntry itemA 0.9 10;
               browserEntry itemB 0.9 10] = Normal n
    /\ sample n = Some s
    /\ target s = itemA
    /\ exists before e after,
         [browserEntry itemC 0.3 5; browserEntry itemA 0.9 10;
          browserEntry itemB 0.9 10] = before ++ e :: after
         /\ s = markInView e
         /\ (forall x, In x before -> strictlyOutranks e x)
         /\ (forall x, In x after -> outranks e x).
Proof.
  eexists; eexists.
  split; [vm_compute; reflexivity |].
  split; [reflexivity |].
  split; [reflexivity |].
  eapply (@onObserve_first_of_tied_wins (gated false)).
  - repeat constructor.
  - vm_compute; reflexivity.
  - reflexivity.
Defined.

End Ties.

(** ** Links and phone numbers *)

Section Links.

Import Js Helpers Text.

Local Open Scope string_scope.

Lemma removeNonDigits_idempotent (s : string) :
  removeNonDigits (removeNonDigits s) = removeNonDigits s.
Proof.
  induction s as [|c rest IH]; simpl; [reflexivity |].
  destruct (isDigit c) eqn:D; simpl; [| exact IH].
  now rewrite D, IH.
Qed.

Lemma removeNonDigits_allDigits (s : string) :
  allDigits (removeNonDigits s) = true.
Proof.
  unfold allDigits.
  induction s as [|c rest IH]; simpl; [reflexivity |].
  destruct (isDigit c) eqn:D; simpl; [| exact IH].
  now rewrite D, IH.
Qed.

(** X9: [phoneURL] gives the empty string for a phone number that is not
    there or empty, and otherwise [tel:] followed by the digits of the
    number and nothing else; applied to its own result it changes
    nothing. *)
Theorem phoneURL_digits_only :
  forall phone : option string,
    (phoneURL phone = EmptyString
     \/ exists digits,
         phoneURL phone = "tel:" ++ digits /\ allDigits digits = true)
    /\ (phoneURL phone = EmptyString <->
        phone = None \/ phone = Some EmptyString)
    /\ phoneURL (Some (phoneURL phone)) = phoneURL phone.
Proof.
  intros [[|c s]|].
  - simpl. split; [now left |]. split; [| reflexivity].
    split; [intros _; now right | reflexivity].
  - assert (phoneURL (Some (String c s))
            = "tel:" ++ removeNonDigits (String c s)) as E by reflexivity.
    rewrite E.
    split.
    + right; eexists; split; [reflexivity | apply removeNonDigits_allDigits].
    + split.
      * split; [discriminate | intros [H|H]; discriminate].
      * assert (phoneURL (Some ("tel:" ++ removeNonDigits (String c s)))
                = "tel:" ++ removeNonDigits
                              ("tel:" ++ removeNonDigits (String c s))) as E'
            by reflexivity.
        rewrite E'.
        assert (forall t, removeNonDigits ("tel:" ++ t) = removeNonDigits t)
          as T by reflexivity.
        now rewrite T, removeNonDigits_idempotent.
  - simpl. split; [now left |]. split; [| reflexivity].
    split; [intros _; now left | reflexivity].
Qed.


Lemma stripScheme_without (s : string) :
  afterPrefixCI "http" s = None -> stripScheme s = s.
Proof. unfold stripScheme; now intros ->. Qed.

(** X11: the text of a link does not depend on whether the scheme was
    added first: [urlText] of the result of [urlLink] is [urlText] of the
    address itself. *)
Theorem urlText_of_urlLink :
  forall url : option string, urlText (Some (urlLink url)) = urlText url.
Proof.
  intros [[|c s]|]; try reflexivity.
  assert (urlLink (Some (String c s))
          = match afterPrefixCI "http" (String c s) with
            | Some _ => String c s
            | None => "http://" ++ String c s
            end) as E by reflexivity.
  destruct (afterPrefixCI "http" (String c s)) as [r|] eqn:P; rewrite E.
  - reflexivity.
  - assert (urlText (Some ("http://" ++ String c s))
            = dropTrailingSlash (removeFirstWww (String c s))) as -> by reflexivity.
    assert (urlText (Some (String c s))
            = dropTrailingSlash (removeFirstWww (stripScheme (String c s))))
      as -> by reflexivity.
    now rewrite (stripScheme_without _ P).
Qed.

End Links.

(** ** Removing tags *)

Section Tags.

Import Js Helpers Text.

Local Open Scope string_scope.

Lemma string_app_assoc (a b c : string) : (a ++ b) ++ c = a ++ (b ++ c).
Proof. induction a as [|x a IH]; simpl; [reflexivity | now rewrite IH]. Qed.

Lemma string_app_empty (a : string) : a ++ EmptyString = a.
Proof. induction a as [|x a IH]; simpl; [reflexivity | now rewrite IH]. Qed.

Lemma hasChar_app (c : ascii) (a b : string) :
  hasChar c (a ++ b) = hasChar c a || hasChar c b.
Proof.
  induction a as [|x a IH]; simpl; [reflexivity |].
  now rewrite IH, orb_assoc.
Qed.

(** After a [<] that no [>] follows, everything stays. *)
Lemma stripTags_unclosed (held s : string) :
  hasChar ">" s = false ->
  stripTags (Some held) s = String "<" (held ++ s).
Proof.
  revert held; induction s as [|c rest IH]; intros held H; simpl.
  - now rewrite string_app_empty.
  - simpl in H; apply orb_false_iff in H as [Hc Hrest].
    rewrite Hc, (IH _ Hrest), string_app_assoc; reflexivity.
Qed.

Lemma stripTags_tagFree (s : string) :
  tagFree (stripTags None s)
  /\ forall held, hasChar ">" held = false -> tagFree (stripTags (Some held) s).
Proof.
  induction s as [|c rest [IH1 IH2]]; simpl.
  - split; [constructor | intros held H; now apply tagFree_open].
  - split.
    + destruct (Ascii.eqb c "<") eqn:E.
      * now apply IH2.
      * apply tagFree_char; [| exact IH1].
        intros ->; discriminate.
    + intros held H.
      destruct (Ascii.eqb c ">") eqn:E.
      * destruct held; [now apply tagFree_pair | exact IH1].
      * apply IH2.
        rewrite hasChar_app, H; simpl.
        now rewrite E.
Qed.

Lemma stripTags_of_tagFree (s : string) :
  tagFree s -> stripTags None s = s.
Proof.
  induction 1 as [|c rest Hc _ IH|rest _ IH|held H]; simpl.
  - reflexivity.
  - destruct (Ascii.eqb c "<") eqn:E; [| now rewrite IH].
    apply Ascii.eqb_eq in E; contradiction.
  - now rewrite IH.
  - now rewrite (stripTags_unclosed EmptyString held H).
Qed.

(** X12: what [escapeHTML] returns holds no tag that it would remove:
    applied to its own result it changes nothing; a text without [<] is
    returned as it is. *)
Theorem escapeHTML_idempotent :
  forall input : option string,
    escapeHTML (Some (escapeHTML input)) = escapeHTML input
    /\ tagFree (escapeHTML input)
    /\ (forall s, input = Some s -> hasChar "<" s = false ->
                  escapeHTML input = s).
Proof.
  intros input.
  assert (tagFree (escapeHTML input)) as T.
  { destruct input as [[|c s]|]; simpl; try constructor.
    apply (stripTags_tagFree (String c s)). }
  split; [| split; [exact T |]].
  - generalize (escapeHTML input), T; intros out Tout.
    destruct out as [|c rest]; [reflexivity |].
    change (stripTags None (String c rest) = String c rest).
    now apply stripTags_of_tagFree.
  - intros s -> H.
    destruct s as [|c rest]; [reflexivity |].
    change (stripTags None (String c rest) = String c rest).
    apply stripTags_of_tagFree.
    revert H; generalize (String c rest); intros t.
    induction t as [|x t IH]; simpl; intros H; [constructor |].
    apply orb_false_iff in H as [Hx Ht].
    apply tagFree_char; [| now apply IH].
    intros ->; discriminate.
Qed.

End Tags.

(** ** Formatting dates *)

Section Formats.

Import Js Helpers Text.

Local Open Scope string_scope.

Variable parseInt : option string -> option Z.
Variable newDate : option Z -> option Z -> option Z -> JsDate.

Lemma firstMatch_beginsNone (alternatives : list string) (c : ascii)
      (rest : string) :
  beginsNone alternatives c = true ->
  firstMatch alternatives (String c rest) = None.
Proof.
  induction alternatives as [|p others IH]; simpl; [reflexivity |].
  intros H; apply andb_true_iff in H as [Hp Ho].
  destruct p as [|a p]; [discriminate |]; simpl.
  apply negb_true_iff in Hp.
  rewrite Ascii.eqb_sym, Hp.
  now apply IH.
Qed.

(** A stretch in which no alternative can begin is copied. *)
Lemma replaceFrom_inert (alternatives : list string) (replacement s rest : string) :
  inertFor alternatives s = true ->
  replaceFrom alternatives replacement 0 (s ++ rest)
  = s ++ replaceFrom alternatives replacement 0 rest.
Proof.
  induction s as [|c s IH]; simpl; [reflexivity |].
  intros H; apply andb_true_iff in H as [Hc Hs].
  now rewrite (@firstMatch_beginsNone alternatives c (s ++ rest) Hc), (IH Hs).
Qed.

Lemma numeric_inert (alternatives : list string) (s : string) :
  (forall c, isNumberChar c = true -> beginsNone alternatives c = true) ->
  numeric s = true -> inertFor alternatives s = true.
Proof.
  intros Hb; induction s as [|c s IH]; simpl; [reflexivity |].
  intros H; apply andb_true_iff in H as [Hc Hs].
  now rewrite (Hb c Hc), (IH Hs).
Qed.

Lemma numberChar_not (a c : ascii) :
  isNumberChar a = false -> isNumberChar c = true -> Ascii.eqb a c = false.
Proof.
  intros Ha Hc.
  destruct (Ascii.eqb a c) eqn:E; [| reflexivity].
  apply Ascii.eqb_eq in E; subst; congruence.
Qed.

Lemma numberToString_numeric (z : Z) : numeric (numberToString z) = true.
Proof.
  unfold numberToString.
  assert (forall d, numeric (NilEmpty.string_of_uint d) = true) as U
      by (induction d; simpl; auto).
  assert (forall d, numeric (NilZero.string_of_uint d) = true) as U0
      by (intros d; destruct d; try reflexivity; apply (U (_ d))).
  destruct (Z.to_int z); simpl; auto.
Qed.

(** X13: with the default format, a valid date is written as the short
    name of its month, the day of the month, a comma and the year; a value
    that is neither a string nor a date gives the empty string. *)
Theorem formatDate_default :
  forall (year : Z) (month day : nat) (text : string),
    (month < 12)%nat ->
    formatDate parseInt newDate (DateObject (ValidDate year month day text)) None
    = nth month monthShort EmptyString
      ++ " " ++ numberToString (Z.of_nat day)
      ++ ", " ++ numberToString year
    /\ formatDate parseInt newDate DateOther None = EmptyString.
Proof.
  intros year month day text Hm.
  split; [| reflexivity].
  unfold formatDate, parseDate, getFullYear, getDate, toString, monthName.
  pose proof (numberToString_numeric year) as Ny.
  pose proof (numberToString_numeric (Z.of_nat day)) as Nd.
  generalize dependent (numberToString year); intros ys Ny.
  generalize dependent (numberToString (Z.of_nat day)); intros ds Nd.
  assert (forall alts, (forall c, isNumberChar c = true -> beginsNone alts c = true) ->
                       forall r, replaceFrom alts r 0 ys = ys) as Inert.
  { intros alts Hb r.
    rewrite <- (string_app_empty ys) at 1.
    rewrite (@replaceFrom_inert alts r ys EmptyString
               (@numeric_inert alts ys Hb Ny)).
    simpl; apply string_app_empty. }
  assert (forall c, isNumberChar c = true
                    -> beginsNone ["Month"; "MonthShort"] c = true) as B1.
  { intros c Hc; cbv [beginsNone forallb].
    now rewrite (@numberChar_not "M" c eq_refl Hc). }
  assert (forall c, isNumberChar c = true -> beginsNone ["MonthLong"] c = true)
    as B2.
  { intros c Hc; cbv [beginsNone forallb].
    now rewrite (@numberChar_not "M" c eq_refl Hc). }
  assert (forall c, isNumberChar c = true -> beginsNone ["Date"] c = true) as B3.
  { intros c Hc; cbv [beginsNone forallb].
    now rewrite (@numberChar_not "D" c eq_refl Hc). }
  unfold replaceAll.
  assert (replaceFrom ["Year"] ys 0 (replaceFrom ["ISO"] text 0 "Month Date, Year")
          = "Month Date, " ++ ys) as -> by (simpl; now rewrite string_app_empty).
  do 12 (destruct month as [|month];
         [simpl; rewrite (Inert _ B1); simpl; rewrite (Inert _ B2); simpl;
          rewrite (Inert _ B3); reflexivity |]).
  lia.
Qed.

(** X14: the patterns [MonthLong] and [MonthShort] are never expanded as
    such: [Month] is replaced first, wherever it stands, so that
    [MonthLong] gives the short name of the month followed by [Long], and
    not the long name, and [MonthShort] gives the short name followed by
    [Short]. *)
Theorem formatDate_MonthLong_is_short :
  forall (year : Z) (month day : nat) (text : string),
    (month < 12)%nat ->
    formatDate parseInt newDate (DateObject (ValidDate year month day text))
               (Some "MonthLong")
    = nth month monthShort EmptyString ++ "Long"
    /\ formatDate parseInt newDate (DateObject (ValidDate year month day text))
                  (Some "MonthLong")
       <> nth month monthLong EmptyString
    /\ formatDate parseInt newDate (DateObject (ValidDate year month day text))
                  (Some "MonthShort")
       = nth month monthShort EmptyString ++ "Short".
Proof.
  intros year month day text Hm.
  unfold formatDate, parseDate, getFullYear, getDate, toString, monthName.
  generalize (numberToString year); intros ys.
  generalize (numberToString (Z.of_nat day)); intros ds.
  do 12 (destruct month as [|month];
         [repeat split; try reflexivity; discriminate |]).
  lia.
Qed.

End Formats.

(** X13 at the first of February 2018. *)
Lemma formatDate_default_witness :
  Helpers.formatDate (fun _ => None) (fun _ _ _ => Helpers.InvalidDate)
    (Helpers.DateObject (Helpers.ValidDate 2018 1 1 "Thu Feb 01 2018")) None
  = "Feb 1, 2018"%string.
Proof.
  apply (proj1 (@formatDate_default
                  (fun _ => None) (fun _ _ _ => Helpers.InvalidDate)
                  2018 1 1 "Thu Feb 01 2018" ltac:(repeat constructor))).
Defined.

(** X14 at a date in December. *)
Lemma formatDate_MonthLong_is_short_witness :
  Helpers.formatDate (fun _ => None) (fun _ _ _ => Helpers.InvalidDate)
    (Helpers.DateObject (Helpers.ValidDate 2018 11 4 "Tue Dec 04 2018"))
    (Some "MonthLong"%string)
  = "DecLong"%string.
Proof.
  apply (proj1 (@formatDate_MonthLong_is_short
                  (fun _ => None) (fun _ _ _ => Helpers.InvalidDate)
                  2018 11 4 "Tue Dec 04 2018" ltac:(repeat constructor))).
Defined.

(** ** Links for sharing *)

Section Shares.

Import Js Helpers.

Variable encodeURIComponent : string -> string.

(** X15: the links for sharing check that [data] and [content] are not
    both missing, and no more.  [twitterURL] returns when both are there
    (a link) or both are missing (the empty string), and ends in a
    [TypeError] when exactly one of them is missing.  [emailURL] never
    reads [content] when [data] has its own subject: it ends in a
    [TypeError] when only [data] is missing, or when only [content] is
    missing and [data] has no subject of its own. *)
Theorem share_links_throw_on_one_missing :
  forall (data : option ShareData) (content : option ShareContent),
    (twitterURL encodeURIComponent data content = Throw TypeError <->
     (data = None /\ content <> None) \/ (data <> None /\ content = None))
    /\ (twitterURL encodeURIComponent data content = Normal EmptyString <->
        data = None /\ content = None)
    /\ (emailURL encodeURIComponent data content = Throw TypeError <->
        (data = None /\ content <> None)
        \/ (exists d, data = Some d /\ content = None
                      /\ fieldTruthy (dataEmailShare d) = false)).
Proof.
  intros [d|] [c|]; unfold twitterURL, emailURL, property, andThen; simpl.
  - split; [| split].
    + destruct (fieldTruthy (dataTwitterShare d)); split;
        try discriminate; intros [[H _]|[_ H]]; discriminate.
    + destruct (fieldTruthy (dataTwitterShare d)); split;
        try discriminate; intros [H _]; discriminate.
    + destruct (fieldTruthy (dataEmailShare d)); split;
        try discriminate;
        intros [[H _]|[d' [_ [H _]]]]; discriminate.
  - split; [| split].
    + destruct (fieldTruthy (dataTwitterShare d)); split;
        try (intros _; right; split; [discriminate | reflexivity]);
        reflexivity.
    + destruct (fieldTruthy (dataTwitterShare d)); split;
        try discriminate; intros [H _]; discriminate.
    + destruct (fieldTruthy (dataEmailShare d)) eqn:F; split.
      * discriminate.
      * intros [[H _]|[d' [H [_ F']]]]; [discriminate |].
        inversion H; subst; congruence.
      * intros _; right; exists d; auto.
      * reflexivity.
  - split; [| split].
    + split; [intros _; left; split; [reflexivity | discriminate]
             | reflexivity].
    + split; [discriminate | intros [_ H]; discriminate].
    + split; [intros _; left; split; [reflexivity | discriminate]
             | reflexivity].
  - split; [| split].
    + split; [discriminate |].
      intros [[_ H]|[H _]]; contradiction.
    + split; [auto | reflexivity].
    + split; [discriminate |].
      intros [[_ H]|[d' [H _]]]; [contradiction | discriminate].
Qed.

End Shares.
